(** * A verified model of the instrumented Redis cache (0x02-redis_basic/exercise.py)

    The development embeds [exercise.py] shallowly: the three module-level
    functions [count_calls], [call_history] and [replay], and the class
    [Cache] with [__init__], [store], [get], [get_str] and [get_int].
    Their environment (the Python built-ins [str], [int], [repr], the UTF-8
    codec, [uuid4], [print], and the redis client talking to one server) is
    modelled in the first modules; the program itself is the module
    [Exercise]. *)

From Stdlib Require Import ZArith NArith Ascii String List Lia.
From Stdlib Require Import Floats.SpecFloat.
From stdpp Require Import gmap strings list.

Local Open Scope N_scope.

(** ** Bytes and text *)

(** A Python [bytes] object is a sequence of 8-bit values: a Rocq [string].
    A Python [str] is a sequence of Unicode code points: a list of [N]. *)
Abbreviation bytes := string (only parsing).
Abbreviation text := (list N) (only parsing).

Definition byte_values (b : bytes) : list N :=
  N_of_ascii <$> list_ascii_of_string b.

Definition bytes_of_values (l : list N) : bytes :=
  string_of_list_ascii (ascii_of_N <$> l).

(** A text literal written with ASCII characters. *)
Definition u (s : string) : text := byte_values s.

Module Utf8.

Definition is_surrogate (c : N) : bool := (0xD800 <=? c) && (c <=? 0xDFFF).

(** The code points that have an encoding: the Unicode scalar values. *)
Definition scalar (c : N) : bool := (c <? 0x110000) && negb (is_surrogate c).

(** [str.encode("utf-8")] with strict error handling, one code point. The
    shifts by 6, 12 and 18 bits are written as divisions, the masks [0x3f]
    as remainders. *)
Definition encode_char (c : N) : option (list N) :=
  if c <? 0x80 then Some [c]
  else if c <? 0x800 then Some [0xC0 + c / 64; 0x80 + c mod 64]
  else if c <? 0x10000 then
    if is_surrogate c then None
    else Some [0xE0 + c / 4096; 0x80 + (c / 64) mod 64; 0x80 + c mod 64]
  else if c <? 0x110000 then
    Some [0xF0 + c / 262144; 0x80 + (c / 4096) mod 64;
          0x80 + (c / 64) mod 64; 0x80 + c mod 64]
  else None.

Fixpoint encode_values (s : text) : option (list N) :=
  match s with
  | [] => Some []
  | c :: s' =>
      match encode_char c, encode_values s' with
      | Some l, Some l' => Some (l ++ l')
      | _, _ => None
      end
  end.

Definition encode (s : text) : option bytes :=
  bytes_of_values <$> encode_values s.

Definition is_cont (b : N) : bool := (0x80 <=? b) && (b <=? 0xBF).

(** [bytes.decode("utf-8")], strict: overlong forms, surrogates and values
    above [0x10FFFF] are rejected. *)
Fixpoint decode_values (l : list N) : option text :=
  match l with
  | [] => Some []
  | b0 :: l1 =>
      if b0 <? 0x80 then cons b0 <$> decode_values l1
      else if (0xC2 <=? b0) && (b0 <=? 0xDF) then
        match l1 with
        | b1 :: l2 =>
            if is_cont b1
            then cons ((b0 - 0xC0) * 64 + (b1 - 0x80)) <$> decode_values l2
            else None
        | _ => None
        end
      else if (0xE0 <=? b0) && (b0 <=? 0xEF) then
        match l1 with
        | b1 :: b2 :: l3 =>
            let c := (b0 - 0xE0) * 4096 + (b1 - 0x80) * 64 + (b2 - 0x80) in
            if is_cont b1 && is_cont b2 && (0x800 <=? c) && negb (is_surrogate c)
            then cons c <$> decode_values l3
            else None
        | _ => None
        end
      else if (0xF0 <=? b0) && (b0 <=? 0xF4) then
        match l1 with
        | b1 :: b2 :: b3 :: l4 =>
            let c := (b0 - 0xF0) * 262144 + (b1 - 0x80) * 4096
                     + (b2 - 0x80) * 64 + (b3 - 0x80) in
            if is_cont b1 && is_cont b2 && is_cont b3
               && (0x10000 <=? c) && (c <? 0x110000)
            then cons c <$> decode_values l4
            else None
        | _ => None
        end
      else None
  end.

Definition decode (b : bytes) : option text := decode_values (byte_values b).

End Utf8.

(** ** Numerals *)

Module Numeral.

(** Decimal digits of a natural number, most significant first. *)
Fixpoint dec_digits (fuel : nat) (n : N) : list N :=
  match fuel with
  | O => []
  | S f => (if n <? 10 then [] else dec_digits f (n / 10)) ++ [48 + n mod 10]
  end.

Definition dec_of_N (n : N) : list N :=
  dec_digits (S (N.to_nat (N.log2 n))) n.

(** [repr] of a Python [int]. *)
Definition repr_int (z : Z) : text :=
  match z with
  | Zneg p => 45 :: dec_of_N (Npos p)
  | _ => dec_of_N (Z.to_N z)
  end.

Definition hex_digit (d : N) : N := if d <? 10 then 48 + d else 87 + d.

(** ['%0<width>x' % n]: lower-case hexadecimal, fixed width (the low
    [width] digits). *)
Fixpoint hex_fixed (width : nat) (n : N) : list N :=
  match width with
  | O => []
  | S w => hex_fixed w (n / 16) ++ [hex_digit (n mod 16)]
  end.

Definition is_digit (c : N) : bool := (48 <=? c) && (c <=? 57).

(** The ASCII white space that [int] strips. *)
Definition is_space (c : N) : bool :=
  ((9 <=? c) && (c <=? 13)) || (c =? 32).

(** The value of a digit string grows by one digit. *)
Definition digit_step (a c : N) : N := 10 * a + (c - 48).

(** Digits with single underscores between them, as [int] accepts them. *)
Fixpoint digits_value (acc : N) (after_digit : bool) (l : list N) : option N :=
  match l with
  | [] => if after_digit then Some acc else None
  | c :: r =>
      if is_digit c then digits_value (10 * acc + (c - 48)) true r
      else if (c =? 95) && after_digit then digits_value acc false r
      else None
  end.

Fixpoint lstrip (l : list N) : list N :=
  match l with
  | c :: r => if is_space c then lstrip r else l
  | [] => []
  end.

Definition strip (l : list N) : list N := rev (lstrip (rev (lstrip l))).

(** The literal syntax of [int(x)] in base 10 for an ASCII argument:
    optional white space around an optional sign and the digits. *)
Definition parse_int (l : list N) : option Z :=
  match strip l with
  | [] => None
  | c :: r =>
      if c =? 43 then Z.of_N <$> digits_value 0 false r
      else if c =? 45 then (fun n => - Z.of_N n)%Z <$> digits_value 0 false r
      else Z.of_N <$> digits_value 0 false (c :: r)
  end.

End Numeral.

(** ** Python values and built-ins *)

(** What the interpreter brings and the model leaves open: the shortest
    round-trip [repr] of a float, and the Unicode table behind
    [str.isprintable] for the code points from [0x80] on. *)
Class Runtime := {
  float_repr : spec_float -> string;
  unicode_printable : N -> bool
}.

Inductive exn :=
| TypeError | ValueError | OverflowError | AttributeError
| UnicodeEncodeError | UnicodeDecodeError
| DataError | ResponseError.

Inductive value :=
| VNone
| VBool (b : bool)
| VInt (z : Z)
| VFloat (f : spec_float)
| VStr (s : text)
| VBytes (b : bytes).

Module Builtins.
Section WithRuntime.
Context {RT : Runtime}.

Definition backslash_x (c : N) : text := [92; 120] ++ Numeral.hex_fixed 2 c.

(** The quote [repr] chooses: a double quote only when the string holds a
    single quote and no double quote. *)
Definition quote_of (l : list N) : N :=
  if bool_decide (39 ∈ l) && negb (bool_decide (34 ∈ l)) then 34 else 39.

Definition printable (c : N) : bool :=
  if c <? 0x7F then 0x20 <=? c
  else (0x80 <=? c) && (c <? 0x110000) && negb (Utf8.is_surrogate c)
       && unicode_printable c.

Definition escape_str_char (q c : N) : text :=
  if (c =? q) || (c =? 92) then [92; c]
  else if c =? 9 then [92; 116]
  else if c =? 10 then [92; 110]
  else if c =? 13 then [92; 114]
  else if printable c then [c]
  else if c <? 0x100 then backslash_x c
  else if c <? 0x10000 then [92; 117] ++ Numeral.hex_fixed 4 c
  else [92; 85] ++ Numeral.hex_fixed 8 c.

Definition repr_str (s : text) : text :=
  let q := quote_of s in [q] ++ concat (escape_str_char q <$> s) ++ [q].

Definition escape_byte (q c : N) : text :=
  if (c =? q) || (c =? 92) then [92; c]
  else if c =? 9 then [92; 116]
  else if c =? 10 then [92; 110]
  else if c =? 13 then [92; 114]
  else if (c <? 0x20) || (0x7F <=? c) then backslash_x c
  else [c].

Definition repr_bytes (b : bytes) : text :=
  let l := byte_values b in
  let q := quote_of l in [98; q] ++ concat (escape_byte q <$> l) ++ [q].

Definition repr (v : value) : text :=
  match v with
  | VNone => u "None"
  | VBool true => u "True"
  | VBool false => u "False"
  | VInt z => Numeral.repr_int z
  | VFloat f => u (float_repr f)
  | VStr s => repr_str s
  | VBytes b => repr_bytes b
  end.

(** [str(x)] for one object. *)
Definition str (v : value) : text :=
  match v with
  | VStr s => s
  | _ => repr v
  end.

Fixpoint join_reprs (l : list value) : text :=
  match l with
  | [] => []
  | [v] => repr v
  | v :: l' => repr v ++ u ", " ++ join_reprs l'
  end.

(** [str(args)] for the tuple of positional arguments. *)
Definition str_tuple (args : list value) : text :=
  match args with
  | [v] => u "(" ++ repr v ++ u ",)"
  | _ => u "(" ++ join_reprs args ++ u ")"
  end.

(** The integral part of a float, towards zero. *)
Definition trunc_float (f : spec_float) : exn + Z :=
  match f with
  | S754_zero _ => inr 0%Z
  | S754_infinity _ => inl OverflowError
  | S754_nan => inl ValueError
  | S754_finite s m e =>
      let a := (if (0 <=? e)%Z then Z.shiftl (Zpos m) e
                else Z.shiftr (Zpos m) (- e))%Z in
      inr (if s then (- a)%Z else a)
  end.

Definition of_literal (l : list N) : exn + Z :=
  match Numeral.parse_int l with
  | Some z => inr z
  | None => inl ValueError
  end.

(** [int(x)] for one object. *)
Definition int (v : value) : exn + Z :=
  match v with
  | VNone => inl TypeError
  | VBool b => inr (if b then 1 else 0)%Z
  | VInt z => inr z
  | VFloat f => trunc_float f
  | VStr s => of_literal s
  | VBytes b => of_literal (byte_values b)
  end.

End WithRuntime.
End Builtins.

(** ** The world outside the interpreter *)

(** What a key of the server holds. *)
Inductive entry :=
| RString (b : bytes)
| RList (l : list bytes).

(** The commands the server receives, with their encoded arguments. *)
Inductive command :=
| FLUSHDB
| SET (k v : bytes)
| GET (k : bytes)
| INCR (k : bytes)
| EXISTS (k : bytes)
| RPUSH (k v : bytes)
| LRANGE (k : bytes) (start stop : Z).

(** One Redis server (every [redis.Redis()] connects to the same database),
    the commands it has received (oldest first), the lines printed on the
    standard output (oldest first) and the operating system's entropy. *)
Record world := World {
  database : gmap string entry;
  wire : list command;
  stdout : list (list N);
  urandom : nat -> N;
  drawn : nat
}.

Inductive outcome (A : Type) :=
| Returned (a : A)
| Raised (e : exn).
Arguments Returned {A} a.
Arguments Raised {A} e.

(** A computation: it ends by returning or by raising, and the world it
    leaves behind is kept in both cases. *)
Definition py (A : Type) : Type := world -> outcome A * world.

Definition ret {A} (a : A) : py A := fun w => (Returned a, w).
Definition raise {A} (e : exn) : py A := fun w => (Raised e, w).
Definition bind {A B} (c : py A) (k : A -> py B) : py B :=
  fun w => match c w with
           | (Returned a, w') => k a w'
           | (Raised e, w') => (Raised e, w')
           end.
Definition lift {A} (r : exn + A) : py A :=
  match r with inl e => raise e | inr a => ret a end.

Declare Scope py_scope.
Delimit Scope py_scope with py.
Notation "x <- c ;; k" := (bind c (fun x => k))
  (at level 100, c at next level, right associativity) : py_scope.
Notation "c ;; k" := (bind c (fun _ => k))
  (at level 100, right associativity) : py_scope.
Local Open Scope py_scope.

(** A [for] loop over a list. *)
Fixpoint for_each {A} (l : list A) (body : A -> py unit) : py unit :=
  match l with
  | [] => ret tt
  | x :: l' => body x ;; for_each l' body
  end.

Definition print (line : text) : py unit :=
  fun w => (Returned tt,
            World (database w) (wire w) (stdout w ++ [line]) (urandom w) (drawn w)).

Module Uuid.

(** The variant and version bits of RFC 4122, forced on a 128-bit value. *)
Definition version4 (i : N) : N :=
  let i := N.ldiff i (N.shiftl 0xc000 48) in
  let i := N.lor i (N.shiftl 0x8000 48) in
  let i := N.ldiff i (N.shiftl 0xf000 64) in
  N.lor i (N.shiftl 4 76).

(** [uuid4()]: sixteen random bytes read as an integer, then the bits. *)
Definition uuid4 : py N :=
  fun w =>
    (Returned (version4 (urandom w (drawn w) mod 2 ^ 128)),
     World (database w) (wire w) (stdout w) (urandom w) (S (drawn w))).

(** [str] of a UUID: 32 hexadecimal digits in groups of 8-4-4-4-12. *)
Definition str (i : N) : text :=
  let x := Numeral.hex_fixed 32 i in
  take 8 x ++ [45] ++ take 4 (drop 8 x) ++ [45] ++ take 4 (drop 12 x)
  ++ [45] ++ take 4 (drop 16 x) ++ [45] ++ drop 20 x.

End Uuid.

(** The world once the server has received [c] and holds [db]. *)
Definition received (c : command) (db : gmap string entry) (w : world) : world :=
  World db (wire w ++ [c]) (stdout w) (urandom w) (drawn w).

(** ** The redis client *)

Module Redis.
Section WithRuntime.
Context {RT : Runtime}.

(** The client's encoder: bytes as they are, numbers through their
    [repr], text as UTF-8, anything else refused. *)
Definition encode (v : value) : exn + bytes :=
  match v with
  | VBytes b => inr b
  | VBool _ | VNone => inl DataError
  | VInt _ | VFloat _ =>
      match Utf8.encode (Builtins.repr v) with
      | Some b => inr b
      | None => inl UnicodeEncodeError
      end
  | VStr s =>
      match Utf8.encode s with
      | Some b => inr b
      | None => inl UnicodeEncodeError
      end
  end.

(** The server receives a command and answers it: the command is logged,
    the database replaced, and the answer returned or raised. *)
Definition execute {A} (c : command)
    (serve : gmap string entry -> gmap string entry * (exn + A)) : py A :=
  fun w =>
    let '(db, answer) := serve (database w) in
    lift answer (received c db w).

(** What the server takes for an integer: its canonical decimal form. *)
Definition integer_of (b : bytes) : option Z :=
  match Numeral.parse_int (byte_values b) with
  | Some z =>
      if String.eqb (bytes_of_values (Numeral.repr_int z)) b then Some z else None
  | None => None
  end.

Definition flushdb : py bool :=
  execute FLUSHDB (fun _ => (∅, inr true)).

Definition set (name val : value) : py bool :=
  k <- lift (encode name) ;;
  v <- lift (encode val) ;;
  execute (SET k v) (fun db => (<[k := RString v]> db, inr true)).

Definition get (name : value) : py value :=
  k <- lift (encode name) ;;
  execute (GET k) (fun db =>
    match db !! k with
    | None => (db, inr VNone)
    | Some (RString b) => (db, inr (VBytes b))
    | Some (RList _) => (db, inl ResponseError)
    end).

Definition exists_ (name : value) : py Z :=
  k <- lift (encode name) ;;
  execute (EXISTS k) (fun db =>
    (db, inr (if db !! k is Some _ then 1 else 0)%Z)).

(** INCR creates the key at 1 when it is absent. The counter is an
    unbounded integer here, as in the contract of the store. *)
Definition incr (name : value) : py Z :=
  k <- lift (encode name) ;;
  execute (INCR k) (fun db =>
    match db !! k with
    | None => (<[k := RString "1"]> db, inr 1%Z)
    | Some (RString b) =>
        match integer_of b with
        | Some z =>
            (<[k := RString (bytes_of_values (Numeral.repr_int (z + 1)))]> db,
             inr (z + 1)%Z)
        | None => (db, inl ResponseError)
        end
    | Some (RList _) => (db, inl ResponseError)
    end).

Definition rpush (name val : value) : py Z :=
  k <- lift (encode name) ;;
  v <- lift (encode val) ;;
  execute (RPUSH k v) (fun db =>
    match db !! k with
    | None => (<[k := RList [v]]> db, inr 1%Z)
    | Some (RList l) =>
        (<[k := RList (l ++ [v])]> db, inr (Z.of_nat (length l) + 1)%Z)
    | Some (RString _) => (db, inl ResponseError)
    end).

(** The elements from [start] to [stop], both included; a negative index
    counts from the end. *)
Definition slice {A} (l : list A) (start stop : Z) : list A :=
  let n := Z.of_nat (length l) in
  let a := Z.max 0 (if (start <? 0)%Z then n + start else start)%Z in
  let b := (if (stop <? 0)%Z then n + stop else stop)%Z in
  let b := Z.min b (n - 1) in
  if (b <? a)%Z then []
  else take (Z.to_nat (b - a + 1)) (drop (Z.to_nat a) l).

Definition lrange (name : value) (start stop : Z) : py (list bytes) :=
  k <- lift (encode name) ;;
  execute (LRANGE k start stop) (fun db =>
    match db !! k with
    | None => (db, inr [])
    | Some (RList l) => (db, inr (slice l start stop))
    | Some (RString _) => (db, inl ResponseError)
    end).

End WithRuntime.
End Redis.

(** ** Objects *)

(** What the attribute [_redis] of an object holds: a [redis.Redis] client,
    or some other object. *)
Inductive handle :=
| Redis_client
| Not_redis (v : value).

(** An object with, perhaps, an attribute [_redis]. *)
Record object := Object { _redis : option handle }.

(** A function taking [self] and positional arguments. [functools.wraps]
    copies [__qualname__] from the wrapped function to its wrapper. *)
Record pyfunction := Def {
  __qualname__ : text;
  __call__ : object -> list value -> py value
}.

(** What [replay] may be handed: [None], a plain function (as [Cache.store]
    looked up on the class) or a method bound to its receiver. *)
Inductive callable :=
| None_object
| Function (f : pyfunction)
| Bound_method (__self__ : object) (__func__ : pyfunction).

(** [self._redis]: the attribute, or [AttributeError]. *)
Definition get_redis (self : object) : py handle :=
  match _redis self with
  | Some h => ret h
  | None => raise AttributeError
  end.

(** [isinstance(h, redis.Redis)]. *)
Definition isinstance_Redis (h : handle) : bool :=
  match h with Redis_client => true | Not_redis _ => false end.

(** [self._redis.<command>(...)]: only a client has the commands. *)
Definition client_of (self : object) : py unit :=
  h <- get_redis self ;;
  if isinstance_Redis h then ret tt else raise AttributeError.

(** ** exercise.py *)

Section Decorators.
Context {RT : Runtime}.

(** Lines 9-21. Keyword arguments are left out: calls are positional. *)
Definition count_calls (method : pyfunction) : pyfunction :=
  Def (__qualname__ method) (fun self args =>
    h <- get_redis self ;;
    (if isinstance_Redis h
     then Redis.incr (VStr (__qualname__ method)) ;; ret tt
     else ret tt) ;;
    __call__ method self args).

(** Lines 24-41. *)
Definition call_history (method : pyfunction) : pyfunction :=
  Def (__qualname__ method) (fun self args =>
    let in_key := __qualname__ method ++ u ":inputs" in
    let out_key := __qualname__ method ++ u ":outputs" in
    h <- get_redis self ;;
    if isinstance_Redis h then
      Redis.rpush (VStr in_key) (VStr (Builtins.str_tuple args)) ;;
      output <- __call__ method self args ;;
      Redis.rpush (VStr out_key) output ;;
      ret output
    else ret VNone).

(** [b.decode("utf-8")]. *)
Definition decode (b : bytes) : py text :=
  match Utf8.decode b with
  | Some s => ret s
  | None => raise UnicodeDecodeError
  end.

(** Lines 44-60. *)
Definition replay (method : callable) : py unit :=
  match method with
  | None_object | Function _ => ret tt
  | Bound_method self f =>
      match _redis self with
      | Some Redis_client =>
          let name := __qualname__ f in
          n <- Redis.exists_ (VStr name) ;;
          count <- (if (0 <? n)%Z
                    then data <- Redis.get (VStr name) ;; lift (Builtins.int data)
                    else ret 0%Z) ;;
          if (count =? 0)%Z then ret tt
          else
            print (name ++ u " was called " ++ Numeral.repr_int count
                   ++ u " times:") ;;
            inputs <- Redis.lrange (VStr (name ++ u ":inputs")) 0 (-1) ;;
            outputs <- Redis.lrange (VStr (name ++ u ":outputs")) 0 (-1) ;;
            for_each (zip inputs outputs) (fun '(i, o) =>
              i' <- decode i ;;
              o' <- decode o ;;
              print (name ++ u "(*" ++ i' ++ u ") -> " ++ o'))
      | _ => ret tt
      end
  end.

End Decorators.

Module Cache.
Section WithRuntime.
Context {RT : Runtime}.

(** Lines 67-70. *)
Definition __init__ : py object :=
  Redis.flushdb ;;
  ret (Object (Some Redis_client)).

(** Lines 74-78, the function under the decorators. *)
Definition store_body : pyfunction :=
  Def (u "Cache.store") (fun self args =>
    match args with
    | [data] =>
        i <- Uuid.uuid4 ;;
        let key := Uuid.str i in
        client_of self ;;
        Redis.set (VStr key) data ;;
        ret (VStr key)
    | _ => raise TypeError
    end).

(** Lines 72-78: [count_calls] is applied last, so it is the outer layer. *)
Definition store : pyfunction := count_calls (call_history store_body).

(** Lines 80-85. A decoder, when given, is a callable, which is true. *)
Definition get (self : object) (key : value)
    (method : option (value -> py value)) : py value :=
  client_of self ;;
  data <- Redis.get key ;;
  match method with
  | Some f => f data
  | None => ret data
  end.

(** The classes [str] and [int] called on one argument. *)
Definition str_class (v : value) : py value := ret (VStr (Builtins.str v)).
Definition int_class (v : value) : py value :=
  z <- lift (Builtins.int v) ;; ret (VInt z).

(** Lines 87-89. *)
Definition get_str (self : object) (key : value) : py value :=
  get self key (Some str_class).

(** Lines 91-93. *)
Definition get_int (self : object) (key : value) : py value :=
  get self key (Some int_class).

End WithRuntime.
End Cache.

(** ** Observations on a run *)

(** The call counter of an operation as the server holds it: an absent key
    counts as zero. *)
Definition counter (db : gmap string entry) (k : bytes) : option Z :=
  match db !! k with
  | None => Some 0%Z
  | Some (RString b) => Redis.integer_of b
  | Some (RList _) => None
  end.

(** A history list as the server holds it: an absent key is the empty list. *)
Definition history (db : gmap string entry) (k : bytes) : option (list bytes) :=
  match db !! k with
  | None => Some []
  | Some (RList l) => Some l
  | Some (RString _) => None
  end.

(** Consecutive invocations of one operation on one receiver; the caller
    goes on after an exception. *)
Fixpoint invoke_all (f : pyfunction) (self : object)
    (calls : list (list value)) (w : world) : list (outcome value) * world :=
  match calls with
  | [] => ([], w)
  | args :: rest =>
      let '(r, w') := __call__ f self args w in
      let '(rs, w'') := invoke_all f self rest w' in
      (r :: rs, w'')
  end.

(** The key the next call of [uuid4] generates, as text and as bytes. *)
Definition next_key (w : world) : text :=
  Uuid.str (Uuid.version4 (urandom w (drawn w) mod 2 ^ 128)).
Definition next_key_bytes (w : world) : bytes := bytes_of_values (next_key w).

(** The receiver every [Cache()] evaluates to. *)
Definition cache : object := Object (Some Redis_client).

(** The three keys of the instrumentation of [Cache.store] are sound: the
    counter reads [c] and the history lists are [ins] and [outs]. *)
Definition tracked (db : gmap string entry) (c : Z) (ins outs : list bytes) : Prop :=
  counter db "Cache.store" = Some c
  /\ history db "Cache.store:inputs" = Some ins
  /\ history db "Cache.store:outputs" = Some outs.

Section Sessions.
Context {RT : Runtime}.

(** What [call_history] appends to the inputs list for a call. *)
Definition recorded_input (args : list value) : bytes :=
  default EmptyString (Utf8.encode (Builtins.str_tuple args)).

(** What [call_history] appends to the outputs list for a call: the
    encoded result when the call returned, nothing when it raised. *)
Definition recorded_output (r : outcome value) : list bytes :=
  match r with
  | Returned v => match Redis.encode v with inr b => [b] | inl _ => [] end
  | Raised _ => []
  end.

(** A session: a new [Cache], then consecutive calls of [store] on it. *)
Definition session (calls : list (list value)) (w : world)
    : option (object * list (outcome value) * world) :=
  match Cache.__init__ w with
  | (Returned self, w1) =>
      let '(rs, w2) := invoke_all Cache.store self calls w1 in
      Some (self, rs, w2)
  | (Raised _, _) => None
  end.

(** A returned result is a text that has an encoding. *)
Definition returns_key (r : outcome value) : Prop :=
  match r with
  | Returned v => exists s b, v = VStr s /\ Utf8.encode s = Some b
  | Raised _ => True
  end.

End Sessions.

(** ** A runtime and a world to run examples in *)

(** The special floats are printed as CPython prints them; the finite ones
    are not needed by the examples. Every code point from [0x80] on is taken
    as printable. *)
Definition sample_runtime : Runtime := {|
  float_repr f :=
    match f with
    | S754_zero false => "0.0"
    | S754_zero true => "-0.0"
    | S754_infinity false => "inf"
    | S754_infinity true => "-inf"
    | S754_nan => "nan"
    | S754_finite _ _ _ => "?"
    end;
  unicode_printable _ := true
|}.

(** An empty server, nothing printed, and some entropy. *)
Definition sample_world : world :=
  World ∅ [] [] (fun n => 0x6ba7b8109dad11d180b400c04fd430c8 * N.of_nat (S n)) 0.

(** ** What [replay] is expected to print *)

Section Expected.
Context {RT : Runtime}.

Definition replay_header (name : text) (count : Z) : text :=
  name ++ u " was called " ++ Numeral.repr_int count ++ u " times:".

Definition replay_line (name i o : text) : text :=
  name ++ u "(*" ++ i ++ u ") -> " ++ o.

(** The calls that returned, each with its result, in invocation order. *)
Fixpoint successful_calls (calls : list (list value))
    (rs : list (outcome value)) : list (list value * value) :=
  match calls, rs with
  | args :: calls', Returned v :: rs' => (args, v) :: successful_calls calls' rs'
  | _ :: calls', Raised _ :: rs' => successful_calls calls' rs'
  | _, _ => []
  end.

Definition raised {A} (r : outcome A) : bool :=
  match r with Raised _ => true | Returned _ => false end.

Definition returned {A} (r : outcome A) : bool := negb (raised r).

(** No call that raised comes before a call that returned. *)
Fixpoint failures_last (rs : list (outcome value)) : bool :=
  match rs with
  | [] => true
  | Returned _ :: rs' => failures_last rs'
  | Raised _ :: rs' => forallb raised rs'
  end.

(** [replay] returns, having printed the header with the number of calls
    and then one line per call that returned, with the arguments and the
    result of that call. *)
Definition replay_shows (self : object) (calls : list (list value))
    (rs : list (outcome value)) (w : world) : Prop :=
  let '(r, w') := replay (Bound_method self Cache.store) w in
  r = Returned tt
  /\ stdout w' =
     stdout w
     ++ replay_header (u "Cache.store") (Z.of_nat (length calls))
        :: ((fun '(args, v) =>
               replay_line (u "Cache.store") (Builtins.str_tuple args) (Builtins.str v))
            <$> successful_calls calls rs).

End Expected.

(** The calls of the scenarios. *)
Definition three_calls : list (list value) := [[VInt 10]; [VInt 20]; [VInt 30]].

(** A text that has no encoding (a lone surrogate), then an integer. *)
Definition refused_then_stored : list (list value) := [[VStr [0xD800]]; [VInt 10]].

(** ** Functions to wrap in examples *)

(** A function that returns [None] and does nothing else. *)
Definition returns_none : pyfunction := Def (u "returns_none") (fun _ _ => ret VNone).

(** ** What a computation leaves as it is *)

(** A computation keeps a part of the world: whatever it does, returning or
    raising, that part is afterwards what it was. *)
Definition keeps {A B} (part : world -> B) (c : py A) : Prop :=
  forall w, part (snd (c w)) = part w.

(** A store in which the counter of [Cache.store] reads 1, one call is
    recorded, and the recorded output is a byte that is not UTF-8. *)
Definition undecodable_world : world :=
  World (<["Cache.store" := RString "1"]>
           (<["Cache.store:inputs" := RList ["(1,)"]]>
              (<["Cache.store:outputs" := RList [bytes_of_values [255]]]> ∅)))
        [] [] (urandom sample_world) 0.

(** A store in which the counter of [Cache.store] holds bytes that are not
    a number. *)
Definition miscounted_world : world :=
  World (<["Cache.store" := RString "many"]> ∅) [] [] (urandom sample_world) 0.

(** ** The values the store keeps *)

(** CPython refuses to convert between [int] and [str] beyond 4300 digits,
    with [ValueError]; [repr] and [int] above are those of the interpreter
    for the integers within that limit. *)
Definition within_limit (v : value) : bool :=
  match v with
  | VInt z => (Z.abs z <? 10 ^ 4300)%Z
  | _ => true
  end.

Section StoredForm.
Context {RT : Runtime}.

(** The bytes under which the store keeps a value of a supported type:
    bytes as they are, a text in UTF-8 when it has no lone surrogate, a
    number as the text of its [repr], an integer only within the conversion
    limit. A boolean and [None] have none. *)
Definition stored_form (v : value) : option bytes :=
  match v with
  | VBytes b => Some b
  | VStr s => Utf8.encode s
  | VInt z =>
      if within_limit (VInt z) then Utf8.encode (Numeral.repr_int z) else None
  | VFloat f => Utf8.encode (u (float_repr f))
  | VNone | VBool _ => None
  end.

End StoredForm.

(** * Properties of the environment *)

Section Bytes.

Lemma byte_values_of_values (l : list N) :
  Forall (fun c => c < 256) l -> byte_values (bytes_of_values l) = l.
Proof.
  unfold byte_values, bytes_of_values. intros H.
  rewrite list_ascii_of_string_of_list_ascii.
  induction H as [|c l Hc _ IH]; [done|].
  cbn. rewrite IH. f_equal. by apply N_ascii_embedding.
Qed.

Lemma bytes_of_byte_values (b : bytes) : bytes_of_values (byte_values b) = b.
Proof.
  unfold byte_values, bytes_of_values.
  rewrite <- (string_of_list_ascii_of_string b) at 2. f_equal.
  induction (list_ascii_of_string b) as [|a l IH]; [done|].
  cbn. by rewrite IH, ascii_N_embedding.
Qed.

Lemma byte_values_bound (b : bytes) : Forall (fun c => c < 256) (byte_values b).
Proof.
  unfold byte_values. apply Forall_fmap, Forall_forall. intros a _. cbn.
  apply N_ascii_bounded.
Qed.

Lemma length_bytes_of_values (l : list N) :
  String.length (bytes_of_values l) = length l.
Proof.
  unfold bytes_of_values. induction l as [|c l IH]; [done|]. cbn. by rewrite IH.
Qed.

Lemma bytes_of_values_inj (l l' : list N) :
  Forall (fun c => c < 256) l -> Forall (fun c => c < 256) l' ->
  bytes_of_values l = bytes_of_values l' -> l = l'.
Proof.
  intros H H' E. rewrite <- (byte_values_of_values l), <- (byte_values_of_values l') by done.
  by rewrite E.
Qed.

End Bytes.

Ltac dlia := zify; Z.to_euclidean_division_equations; lia.

(** Decide the comparisons of the goal from the arithmetic hypotheses. *)
Ltac settle_tests :=
  repeat match goal with
    | |- context [N.ltb ?a ?b] => destruct (N.ltb_spec a b); try dlia
    | |- context [N.leb ?a ?b] => destruct (N.leb_spec a b); try dlia
    | |- context [N.eqb ?a ?b] => destruct (N.eqb_spec a b); try dlia
    end.

Section Utf8Facts.
Import Utf8.

Lemma encode_char_scalar (c : N) : scalar c = true -> is_Some (encode_char c).
Proof.
  unfold scalar, encode_char. destruct (is_surrogate c) eqn:E.
  - rewrite andb_false_r. done.
  - rewrite andb_true_r. intros H. rewrite H.
    repeat case_match; eauto.
Qed.

Lemma encode_char_Some (c : N) (l : list N) :
  encode_char c = Some l -> scalar c = true /\ Forall (fun b => b < 256) l.
Proof.
  unfold scalar, encode_char, is_surrogate.
  settle_tests; cbn [andb negb]; try done; intros [= <-];
    (split; [done|]); repeat constructor; dlia.
Qed.

Lemma decode_values_cons (b0 : N) (l1 : list N) :
  decode_values (b0 :: l1) =
  if b0 <? 0x80 then cons b0 <$> decode_values l1
  else if (0xC2 <=? b0) && (b0 <=? 0xDF) then
    match l1 with
    | b1 :: l2 =>
        if is_cont b1
        then cons ((b0 - 0xC0) * 64 + (b1 - 0x80)) <$> decode_values l2
        else None
    | _ => None
    end
  else if (0xE0 <=? b0) && (b0 <=? 0xEF) then
    match l1 with
    | b1 :: b2 :: l3 =>
        let c := (b0 - 0xE0) * 4096 + (b1 - 0x80) * 64 + (b2 - 0x80) in
        if is_cont b1 && is_cont b2 && (0x800 <=? c) && negb (is_surrogate c)
        then cons c <$> decode_values l3
        else None
    | _ => None
    end
  else if (0xF0 <=? b0) && (b0 <=? 0xF4) then
    match l1 with
    | b1 :: b2 :: b3 :: l4 =>
        let c := (b0 - 0xF0) * 262144 + (b1 - 0x80) * 4096
                 + (b2 - 0x80) * 64 + (b3 - 0x80) in
        if is_cont b1 && is_cont b2 && is_cont b3
           && (0x10000 <=? c) && (c <? 0x110000)
        then cons c <$> decode_values l4
        else None
    | _ => None
    end
  else None.
Proof. reflexivity. Qed.

Lemma decode_encode_char (c : N) (l rest : list N) :
  encode_char c = Some l ->
  decode_values (l ++ rest) = cons c <$> decode_values rest.
Proof.
  unfold encode_char, is_surrogate.
  settle_tests; cbn [andb negb]; try done; intros [= <-];
    cbn [app]; rewrite decode_values_cons; cbv beta iota zeta;
    unfold is_cont, is_surrogate;
    settle_tests; cbn [andb negb]; try done; do 2 f_equal; dlia.
Qed.

Lemma decode_encode_values (s : text) (l : list N) :
  encode_values s = Some l ->
  decode_values l = Some s /\ Forall (fun b => b < 256) l.
Proof.
  revert l. induction s as [|c s IH]; intros l; cbn [encode_values].
  - by intros [= <-].
  - destruct (encode_char c) as [lc|] eqn:Ec; [|done].
    destruct (encode_values s) as [ls|] eqn:Es; [|done].
    intros [= <-]. destruct (IH ls eq_refl) as [Hd Hb].
    rewrite (decode_encode_char _ _ _ Ec), Hd. split; [done|].
    apply Forall_app. split; [|done]. by apply encode_char_Some in Ec as [_ ?].
Qed.

(** Decoding undoes encoding. *)
Lemma decode_encode (s : text) (b : bytes) :
  encode s = Some b -> decode b = Some s.
Proof.
  unfold encode, decode. destruct (encode_values s) as [l|] eqn:E; [|done].
  intros [= <-]. apply decode_encode_values in E as [Hd Hb].
  by rewrite byte_values_of_values.
Qed.

Lemma encode_values_scalar (s : text) :
  Forall (fun c => scalar c = true) s -> is_Some (encode_values s).
Proof.
  induction 1 as [|c s Hc _ [l IH]]; cbn [encode_values]; [eauto|].
  destruct (encode_char_scalar c Hc) as [lc ->]. rewrite IH. eauto.
Qed.

Lemma encode_scalar (s : text) :
  Forall (fun c => scalar c = true) s -> is_Some (encode s).
Proof.
  intros H. unfold encode. destruct (encode_values_scalar s H) as [l ->]. eauto.
Qed.

(** ASCII text is its own encoding. *)
Lemma encode_ascii (s : text) :
  Forall (fun c => c < 128) s -> encode s = Some (bytes_of_values s).
Proof.
  intros H. unfold encode.
  assert (encode_values s = Some s) as ->; [|done].
  induction H as [|c s Hc _ IH]; [done|].
  cbn [encode_values]. rewrite IH. unfold encode_char.
  destruct (N.ltb_spec c 0x80); [done|lia].
Qed.

End Utf8Facts.

Section NumeralFacts.
Import Numeral.

Lemma dec_digits_spec (fuel : nat) (n : N) :
  n < 2 ^ N.of_nat fuel -> fuel <> O ->
  Forall (fun c => is_digit c = true) (dec_digits fuel n)
  /\ dec_digits fuel n <> []
  /\ fold_left digit_step (dec_digits fuel n) 0 = n.
Proof.
  revert n. induction fuel as [|f IH]; intros n Hn Hf; [done|].
  - cbn [dec_digits].
    assert (Hd : is_digit (48 + n mod 10) = true).
    { unfold is_digit. settle_tests; done. }
    destruct (N.ltb_spec n 10) as [Hlt|Hge].
    + cbn [app]. repeat split; [by repeat constructor|done|].
      cbn. unfold digit_step. dlia.
    + destruct (IH (n / 10)) as (Hall & Hne & Hval).
      { rewrite Nat2N.inj_succ, N.pow_succ_r' in Hn. dlia. }
      { intros ->. rewrite Nat2N.inj_succ, N.pow_succ_r' in Hn. cbn in Hn. lia. }
      repeat split.
      * apply Forall_app. split; [done|by repeat constructor].
      * by destruct (dec_digits f (n / 10)).
      * rewrite fold_left_app, Hval. cbn. unfold digit_step. dlia.
Qed.

Lemma dec_of_N_spec (n : N) :
  Forall (fun c => is_digit c = true) (dec_of_N n)
  /\ dec_of_N n <> []
  /\ fold_left digit_step (dec_of_N n) 0 = n.
Proof.
  apply dec_digits_spec; [|done]. rewrite Nat2N.inj_succ, N2Nat.id.
  destruct (N.eq_dec n 0) as [->|Hn]; [done|].
  apply N.log2_spec. lia.
Qed.

Lemma digits_value_digits (l : list N) (acc : N) (after : bool) :
  Forall (fun c => is_digit c = true) l ->
  l <> [] \/ after = true ->
  digits_value acc after l = Some (fold_left digit_step l acc).
Proof.
  intros H. revert acc after.
  induction H as [|c l Hc _ IH]; intros acc after Hne.
  - by destruct Hne as [?| ->].
  - cbn [digits_value fold_left]. rewrite Hc. apply IH. by right.
Qed.

Lemma is_digit_not_space (c : N) : is_digit c = true -> is_space c = false.
Proof. unfold is_digit, is_space. settle_tests; done. Qed.

Lemma lstrip_id (l : list N) :
  Forall (fun c => is_space c = false) l -> lstrip l = l.
Proof. destruct 1 as [|c l Hc _]; [done|]. cbn. by rewrite Hc. Qed.

Lemma strip_id (l : list N) :
  Forall (fun c => is_space c = false) l -> strip l = l.
Proof.
  intros H. unfold strip. rewrite (lstrip_id l H), lstrip_id, rev_involutive; [done|].
  by apply Forall_rev.
Qed.

Lemma repr_int_no_space (z : Z) :
  Forall (fun c => is_space c = false) (repr_int z).
Proof.
  assert (H : forall n, Forall (fun c => is_space c = false) (dec_of_N n)).
  { intros n. destruct (dec_of_N_spec n) as (Hall & _).
    eapply Forall_impl; [exact Hall|]. apply is_digit_not_space. }
  destruct z; cbn [repr_int]; [apply H..|]. constructor; [done|apply H].
Qed.

(** [int] reads back what [repr] writes. *)
Lemma parse_repr_int (z : Z) : parse_int (repr_int z) = Some z.
Proof.
  unfold parse_int. rewrite strip_id by apply repr_int_no_space.
  destruct z as [|p|p]; cbn [repr_int].
  - reflexivity.
  - destruct (dec_of_N_spec (Z.to_N (Z.pos p))) as (Hall & Hne & Hval).
    destruct (dec_of_N (Z.to_N (Z.pos p))) as [|c r] eqn:E; [done|].
    assert (Hc : is_digit c = true) by (by inversion Hall).
    unfold is_digit in Hc.
    destruct (N.eqb_spec c 43); [subst; done|].
    destruct (N.eqb_spec c 45); [subst; done|].
    rewrite (digits_value_digits _ _ _ Hall) by (by left).
    rewrite Hval. cbn. done.
  - destruct (dec_of_N_spec (N.pos p)) as (Hall & Hne & Hval).
    cbn [N.eqb Pos.eqb]. change (45 =? 43) with false. change (45 =? 45) with true.
    cbn match. rewrite (digits_value_digits _ _ _ Hall) by (by left).
    rewrite Hval. done.
Qed.

Lemma repr_int_ascii (z : Z) : Forall (fun c => c < 128) (repr_int z).
Proof.
  assert (H : forall n, Forall (fun c => c < 128) (dec_of_N n)).
  { intros n. destruct (dec_of_N_spec n) as (Hall & _).
    eapply Forall_impl; [exact Hall|]. intros c. unfold is_digit.
    settle_tests; done. }
  destruct z; cbn [repr_int]; [apply H..|]. constructor; [done|apply H].
Qed.

Lemma length_hex_fixed (width : nat) (n : N) : length (hex_fixed width n) = width.
Proof.
  revert n. induction width as [|w IH]; intros n; [done|].
  cbn [hex_fixed]. rewrite length_app, IH. cbn. lia.
Qed.

Lemma hex_fixed_ascii (width : nat) (n : N) :
  Forall (fun c => c < 128) (hex_fixed width n).
Proof.
  revert n. induction width as [|w IH]; intros n; [done|].
  cbn [hex_fixed]. apply Forall_app. split; [apply IH|].
  repeat constructor. unfold hex_digit. settle_tests.
Qed.

End NumeralFacts.

Section BuiltinsFacts.
Context {RT : Runtime}.
Import Builtins.

Lemma scalar_byte (c : N) : c < 256 -> Utf8.scalar c = true.
Proof. unfold Utf8.scalar, Utf8.is_surrogate. intros. settle_tests; done. Qed.

Lemma scalar_bytes (l : list N) :
  Forall (fun c => c < 256) l -> Forall (fun c => Utf8.scalar c = true) l.
Proof. intros H. eapply Forall_impl; [exact H|]. apply scalar_byte. Qed.

Lemma scalar_ascii (l : list N) :
  Forall (fun c => c < 128) l -> Forall (fun c => Utf8.scalar c = true) l.
Proof.
  intros H. eapply Forall_impl; [exact H|]. intros c Hc. cbv beta in Hc. apply scalar_byte. lia.
Qed.

Lemma quote_of_cases (l : list N) : quote_of l = 34 \/ quote_of l = 39.
Proof. unfold quote_of. case_match; auto. Qed.

Lemma backslash_x_scalar (c : N) :
  Forall (fun c => Utf8.scalar c = true) (backslash_x c).
Proof.
  apply scalar_ascii. unfold backslash_x. apply Forall_app. split.
  - repeat constructor.
  - apply hex_fixed_ascii.
Qed.

Lemma escape_str_char_scalar (q c : N) :
  q < 256 -> Forall (fun c => Utf8.scalar c = true) (escape_str_char q c).
Proof.
  intros Hq. unfold escape_str_char.
  destruct (N.eqb_spec c q) as [->|_]; cbn [orb].
  { apply scalar_bytes. repeat constructor; lia. }
  destruct (N.eqb_spec c 92) as [->|_]; [by repeat constructor|].
  destruct (c =? 9); [by repeat constructor|].
  destruct (c =? 10); [by repeat constructor|].
  destruct (c =? 13); [by repeat constructor|].
  destruct (printable c) eqn:Hp.
  { repeat constructor. unfold printable in Hp.
    destruct (N.ltb_spec c 0x7F).
    - apply scalar_byte. lia.
    - unfold Utf8.scalar. apply andb_true_iff in Hp as [Hp _].
      apply andb_true_iff in Hp as [Hp ->]. apply andb_true_iff in Hp as [_ ->].
      done. }
  destruct (c <? 0x100); [apply backslash_x_scalar|].
  destruct (c <? 0x10000); apply scalar_ascii;
    (apply Forall_app; split; [repeat constructor|apply hex_fixed_ascii]).
Qed.

Lemma escape_byte_scalar (q c : N) :
  q < 256 -> c < 256 -> Forall (fun c => Utf8.scalar c = true) (escape_byte q c).
Proof.
  intros Hq Hc. unfold escape_byte.
  destruct ((c =? q) || (c =? 92)).
  { apply scalar_bytes. repeat constructor; lia. }
  destruct (c =? 9); [by repeat constructor|].
  destruct (c =? 10); [by repeat constructor|].
  destruct (c =? 13); [by repeat constructor|].
  destruct ((c <? 0x20) || (0x7F <=? c)); [apply backslash_x_scalar|].
  apply scalar_bytes. by repeat constructor.
Qed.

Lemma quoted_scalar (q : N) (body : list (list N)) :
  q < 256 ->
  Forall (Forall (fun c => Utf8.scalar c = true)) body ->
  Forall (fun c => Utf8.scalar c = true) ([q] ++ concat body ++ [q]).
Proof.
  intros Hq Hb. repeat apply Forall_app_2.
  - repeat constructor. by apply scalar_byte.
  - by apply Forall_concat.
  - repeat constructor. by apply scalar_byte.
Qed.

Lemma quote_of_byte (l : list N) : quote_of l < 256.
Proof. destruct (quote_of_cases l) as [-> | ->]; lia. Qed.

(** Every [repr] can be encoded: what cannot be is escaped. *)
Lemma repr_scalar (v : value) : Forall (fun c => Utf8.scalar c = true) (repr v).
Proof.
  destruct v as [|[]|z|f|s|b]; cbn [repr].
  - by repeat constructor.
  - by repeat constructor.
  - by repeat constructor.
  - apply scalar_ascii, repr_int_ascii.
  - apply scalar_bytes, byte_values_bound.
  - unfold repr_str. apply quoted_scalar; [apply quote_of_byte|].
    apply Forall_fmap, Forall_forall. intros c _. cbn.
    apply escape_str_char_scalar, quote_of_byte.
  - unfold repr_bytes. apply (Forall_app_2 _ [98]); [by repeat constructor|].
    apply quoted_scalar; [apply quote_of_byte|].
    apply Forall_fmap. eapply Forall_impl; [apply byte_values_bound|].
    intros c Hc. cbn. apply escape_byte_scalar; [apply quote_of_byte|done].
Qed.

Lemma join_reprs_scalar (args : list value) :
  Forall (fun c => Utf8.scalar c = true) (join_reprs args).
Proof.
  induction args as [|v [|v' args] IH]; [done|cbn; apply repr_scalar|].
  change (join_reprs (v :: v' :: args))
    with (repr v ++ u ", " ++ join_reprs (v' :: args)).
  repeat apply Forall_app_2; [apply repr_scalar|by repeat constructor|done].
Qed.

Lemma str_tuple_scalar (args : list value) :
  Forall (fun c => Utf8.scalar c = true) (str_tuple args).
Proof.
  assert (H : Forall (fun c => Utf8.scalar c = true) (u "(" ++ join_reprs args ++ u ")")).
  { repeat apply Forall_app_2; [by repeat constructor|apply join_reprs_scalar|by repeat constructor]. }
  destruct args as [|v [|]]; [done| |done].
  unfold str_tuple.
  repeat apply Forall_app_2; [by repeat constructor|apply repr_scalar|by repeat constructor].
Qed.

(** The rendering of the arguments always has an encoding. *)
Lemma str_tuple_encodes (args : list value) :
  exists b, Utf8.encode (str_tuple args) = Some b.
Proof. destruct (encode_scalar _ (str_tuple_scalar args)) as [b Hb]. eauto. Qed.

End BuiltinsFacts.

Section UuidFacts.

Lemma length_uuid_str (i : N) : length (Uuid.str i) = 36%nat.
Proof.
  unfold Uuid.str.
  rewrite !length_app, !length_take, !length_drop, !length_hex_fixed. reflexivity.
Qed.

Lemma uuid_str_ascii (i : N) : Forall (fun c => c < 128) (Uuid.str i).
Proof.
  unfold Uuid.str. pose proof (hex_fixed_ascii 32 i) as H.
  repeat apply Forall_app_2;
    try (by repeat constructor); try apply Forall_take; try apply Forall_drop;
    try apply Forall_take; try apply Forall_drop; done.
Qed.

Lemma encode_next_key (w : world) :
  Utf8.encode (next_key w) = Some (next_key_bytes w).
Proof. apply encode_ascii, uuid_str_ascii. Qed.

Lemma decode_next_key (w : world) :
  Utf8.decode (next_key_bytes w) = Some (next_key w).
Proof. apply decode_encode, encode_next_key. Qed.

Lemma length_next_key (w : world) : String.length (next_key_bytes w) = 36%nat.
Proof.
  unfold next_key_bytes, next_key.
  by rewrite length_bytes_of_values, length_uuid_str.
Qed.

(** A generated key is none of the keys of the instrumentation. *)
Lemma next_key_fresh (w : world) (k : bytes) :
  String.length k <> 36%nat -> next_key_bytes w <> k.
Proof. intros H <-. by rewrite length_next_key in H. Qed.

End UuidFacts.

Section MonadFacts.

Lemma run_ret {A B} (a : A) (K : A -> py B) (w : world) :
  (x <- ret a ;; K x) w = K a w.
Proof. reflexivity. Qed.

Lemma run_raise {A B} (e : exn) (K : A -> py B) (w : world) :
  (x <- raise e ;; K x) w = (Raised e, w).
Proof. reflexivity. Qed.

Lemma run_assoc {A B C} (c : py A) (K1 : A -> py B) (K2 : B -> py C) (w : world) :
  (y <- (x <- c ;; K1 x) ;; K2 y) w = (x <- c ;; y <- K1 x ;; K2 y) w.
Proof. unfold bind. by destruct (c w) as [[a|e] w']. Qed.

Lemma run_uuid4 {B} (K : N -> py B) (w : world) :
  (i <- Uuid.uuid4 ;; K i) w =
  K (Uuid.version4 (urandom w (drawn w) mod 2 ^ 128))
    (World (database w) (wire w) (stdout w) (urandom w) (S (drawn w))).
Proof. reflexivity. Qed.

Lemma run_final {A} (c : py A) (w : world) : c w = (x <- c ;; ret x) w.
Proof. unfold bind, ret. by destruct (c w) as [[a|e] w']. Qed.

End MonadFacts.

(** Bring the program applied to a world in the form [(x <- c ;; K x) w]
    with [c] a primitive, and run the pure steps. *)
Ltac py_norm :=
  repeat first
    [ rewrite run_assoc
    | rewrite run_ret
    | rewrite run_raise
    | rewrite run_uuid4
    | progress cbn [__call__ __qualname__ _redis get_redis isinstance_Redis
                    database wire stdout urandom drawn received lift]
    | progress cbv beta ].

Ltac py_step :=
  cbv beta iota zeta delta [bind ret raise lift Redis.execute].

Section RedisFacts.
Context {RT : Runtime}.

Lemma encode_text (s : text) (k : bytes) :
  Utf8.encode s = Some k -> Redis.encode (VStr s) = inr k.
Proof. intros H. cbn. by rewrite H. Qed.

Lemma integer_of_repr (z : Z) :
  Redis.integer_of (bytes_of_values (Numeral.repr_int z)) = Some z.
Proof.
  unfold Redis.integer_of.
  rewrite byte_values_of_values.
  - rewrite parse_repr_int. by rewrite String.eqb_refl.
  - eapply Forall_impl; [apply repr_int_ascii|]. intros c Hc. cbv beta in Hc. lia.
Qed.

Lemma integer_of_int (b : bytes) (z : Z) :
  Redis.integer_of b = Some z -> Builtins.int (VBytes b) = inr z.
Proof.
  unfold Redis.integer_of, Builtins.int, Builtins.of_literal.
  destruct (Numeral.parse_int (byte_values b)) as [z'|]; [|done].
  case_match; [|done]. by intros [= ->].
Qed.

(** INCR on a key that counts [c]: the key counts [c + 1] afterwards. *)
Lemma run_incr {B} (name : text) (k : bytes) (c : Z) (K : Z -> py B) (w : world) :
  Utf8.encode name = Some k ->
  counter (database w) k = Some c ->
  (x <- Redis.incr (VStr name) ;; K x) w =
  K (c + 1)%Z
    (received (INCR k)
       (<[k := RString (bytes_of_values (Numeral.repr_int (c + 1)))]> (database w)) w).
Proof.
  intros Hk Hc. unfold Redis.incr. rewrite (encode_text _ _ Hk). py_step.
  unfold counter in Hc. destruct (database w !! k) as [[b|l]|]; [| done |].
  - rewrite Hc. done.
  - injection Hc as <-. done.
Qed.

(** RPUSH on a key that holds the list [l]. *)
Lemma run_rpush {B} (name : text) (k : bytes) (v : value) (vb : bytes)
    (l : list bytes) (K : Z -> py B) (w : world) :
  Utf8.encode name = Some k ->
  Redis.encode v = inr vb ->
  history (database w) k = Some l ->
  (x <- Redis.rpush (VStr name) v ;; K x) w =
  K (Z.of_nat (length l) + 1)%Z
    (received (RPUSH k vb) (<[k := RList (l ++ [vb])]> (database w)) w).
Proof.
  intros Hk Hv Hl. unfold Redis.rpush. rewrite (encode_text _ _ Hk), Hv. py_step.
  unfold history in Hl. destruct (database w !! k) as [[b|l']|]; [done| |].
  - injection Hl as ->. done.
  - injection Hl as <-. done.
Qed.

Lemma run_set {B} (name : text) (k : bytes) (v : value) (vb : bytes)
    (K : bool -> py B) (w : world) :
  Utf8.encode name = Some k ->
  Redis.encode v = inr vb ->
  (x <- Redis.set (VStr name) v ;; K x) w =
  K true (received (SET k vb) (<[k := RString vb]> (database w)) w).
Proof.
  intros Hk Hv. unfold Redis.set. rewrite (encode_text _ _ Hk), Hv. done.
Qed.

Lemma run_set_refused {B} (name : text) (k : bytes) (v : value) (e : exn)
    (K : bool -> py B) (w : world) :
  Utf8.encode name = Some k ->
  Redis.encode v = inl e ->
  (x <- Redis.set (VStr name) v ;; K x) w = (Raised e, w).
Proof.
  intros Hk Hv. unfold Redis.set. rewrite (encode_text _ _ Hk), Hv. done.
Qed.

Lemma counter_insert_ne (db : gmap string entry) (k k' : bytes) (e : entry) :
  k <> k' -> counter (<[k := e]> db) k' = counter db k'.
Proof. intros H. unfold counter. by rewrite lookup_insert_ne. Qed.

Lemma history_insert_ne (db : gmap string entry) (k k' : bytes) (e : entry) :
  k <> k' -> history (<[k := e]> db) k' = history db k'.
Proof. intros H. unfold history. by rewrite lookup_insert_ne. Qed.

Lemma counter_insert (db : gmap string entry) (k : bytes) (z : Z) :
  counter (<[k := RString (bytes_of_values (Numeral.repr_int z))]> db) k = Some z.
Proof. unfold counter. rewrite lookup_insert_eq. apply integer_of_repr. Qed.

Lemma history_insert (db : gmap string entry) (k : bytes) (l : list bytes) :
  history (<[k := RList l]> db) k = Some l.
Proof. unfold history. by rewrite lookup_insert_eq. Qed.

End RedisFacts.

(** The keys of the instrumentation of [Cache.store]. *)
Lemma encode_store_name : Utf8.encode (u "Cache.store") = Some "Cache.store".
Proof. reflexivity. Qed.
Lemma encode_inputs_key :
  Utf8.encode (u "Cache.store" ++ u ":inputs") = Some "Cache.store:inputs".
Proof. reflexivity. Qed.
Lemma encode_outputs_key :
  Utf8.encode (u "Cache.store" ++ u ":outputs") = Some "Cache.store:outputs".
Proof. reflexivity. Qed.

Section StoreFacts.
Context {RT : Runtime}.

Ltac store_start :=
  unfold Cache.store, count_calls, call_history, Cache.store_body, cache, client_of;
  py_norm.

Ltac record_input Hc Hi Hib :=
  rewrite (run_incr _ _ _ _ _ encode_store_name Hc); py_norm;
  erewrite run_rpush;
    [|apply encode_inputs_key|apply encode_text, Hib
     |py_norm; rewrite history_insert_ne by done; exact Hi];
  py_norm.

(** A call with one encodable argument returns the generated key. *)
Lemma store_returns (w : world) (data : value) (b ib : bytes) (c : Z)
    (ins outs : list bytes) :
  tracked (database w) c ins outs ->
  Redis.encode data = inr b ->
  Utf8.encode (Builtins.str_tuple [data]) = Some ib ->
  __call__ Cache.store cache [data] w =
  (Returned (VStr (next_key w)),
   World
     (<["Cache.store:outputs" := RList (outs ++ [next_key_bytes w])]>
        (<[next_key_bytes w := RString b]>
           (<["Cache.store:inputs" := RList (ins ++ [ib])]>
              (<["Cache.store" := RString (bytes_of_values (Numeral.repr_int (c + 1)))]>
                 (database w)))))
     (wire w ++ [INCR "Cache.store"; RPUSH "Cache.store:inputs" ib;
                 SET (next_key_bytes w) b;
                 RPUSH "Cache.store:outputs" (next_key_bytes w)])
     (stdout w) (urandom w) (S (drawn w))).
Proof.
  intros (Hc & Hi & Ho) Hb Hib. store_start. record_input Hc Hi Hib.
  erewrite run_set; [|apply encode_next_key|exact Hb].
  py_norm.
  erewrite run_rpush;
    [|apply encode_outputs_key|apply encode_text, encode_next_key
     |py_norm; rewrite !history_insert_ne; [exact Ho|done..|by apply next_key_fresh]].
  py_norm. unfold ret, received. cbn [database wire stdout urandom drawn].
  by rewrite <- !app_assoc.
Qed.

(** A call whose argument the client refuses raises after the increment
    and the record of the input. *)
Lemma store_refused (w : world) (data : value) (e : exn) (ib : bytes) (c : Z)
    (ins outs : list bytes) :
  tracked (database w) c ins outs ->
  Redis.encode data = inl e ->
  Utf8.encode (Builtins.str_tuple [data]) = Some ib ->
  __call__ Cache.store cache [data] w =
  (Raised e,
   World
     (<["Cache.store:inputs" := RList (ins ++ [ib])]>
        (<["Cache.store" := RString (bytes_of_values (Numeral.repr_int (c + 1)))]>
           (database w)))
     (wire w ++ [INCR "Cache.store"; RPUSH "Cache.store:inputs" ib])
     (stdout w) (urandom w) (S (drawn w))).
Proof.
  intros (Hc & Hi & Ho) Hb Hib. store_start. record_input Hc Hi Hib.
  erewrite run_set_refused; [|apply encode_next_key|exact Hb].
  unfold received. cbn [database wire stdout urandom drawn].
  by rewrite <- !app_assoc.
Qed.

(** A call with no argument or several raises [TypeError] at the same
    point. *)
Lemma store_arity (w : world) (args : list value) (ib : bytes) (c : Z)
    (ins outs : list bytes) :
  tracked (database w) c ins outs ->
  length args <> 1%nat ->
  Utf8.encode (Builtins.str_tuple args) = Some ib ->
  __call__ Cache.store cache args w =
  (Raised TypeError,
   World
     (<["Cache.store:inputs" := RList (ins ++ [ib])]>
        (<["Cache.store" := RString (bytes_of_values (Numeral.repr_int (c + 1)))]>
           (database w)))
     (wire w ++ [INCR "Cache.store"; RPUSH "Cache.store:inputs" ib])
     (stdout w) (urandom w) (drawn w)).
Proof.
  intros (Hc & Hi & Ho) Hn Hib. store_start. record_input Hc Hi Hib.
  destruct args as [|a [|a' args]]; [|done|]; py_norm;
    unfold received; cbn [database wire stdout urandom drawn];
    by rewrite <- !app_assoc.
Qed.

End StoreFacts.

(** The keys at hand differ: literal names, or a name and a generated key. *)
Ltac keys_ne :=
  first [ done
        | apply next_key_fresh; vm_compute; lia
        | apply not_eq_sym, next_key_fresh; vm_compute; lia ].

Section SessionFacts.
Context {RT : Runtime}.

Lemma recorded_input_spec (args : list value) :
  Utf8.encode (Builtins.str_tuple args) = Some (recorded_input args).
Proof.
  unfold recorded_input. by destruct (str_tuple_encodes args) as [b ->].
Qed.

Lemma tracked_step (db : gmap string entry) (c : Z) (ins outs : list bytes)
    (ib : bytes) :
  tracked db c ins outs ->
  tracked
    (<["Cache.store:inputs" := RList (ins ++ [ib])]>
       (<["Cache.store" := RString (bytes_of_values (Numeral.repr_int (c + 1)))]> db))
    (c + 1) (ins ++ [ib]) outs.
Proof.
  intros (Hc & Hi & Ho). repeat split.
  - rewrite counter_insert_ne by done. apply counter_insert.
  - apply history_insert.
  - by rewrite !history_insert_ne.
Qed.

(** One call: the counter grows by one and the input is recorded whatever
    happens; the output is recorded when the call returns. *)
Lemma store_step (w : world) (args : list value) (c : Z) (ins outs : list bytes) :
  tracked (database w) c ins outs ->
  exists r w',
    __call__ Cache.store cache args w = (r, w')
    /\ tracked (database w') (c + 1) (ins ++ [recorded_input args])
         (outs ++ recorded_output r)
    /\ stdout w' = stdout w
    /\ returns_key r.
Proof.
  intros Ht. pose proof (recorded_input_spec args) as Hib.
  destruct (decide (length args = 1%nat)) as [Hlen|Hlen].
  - destruct args as [|data [|? ?]]; try done.
    destruct (Redis.encode data) as [e|b] eqn:Hb.
    + eexists _, _. split; [by apply (store_refused _ _ _ _ _ _ _ Ht Hb Hib)|].
      cbn [database stdout recorded_output returns_key]. rewrite app_nil_r.
      split; [apply tracked_step; exact Ht|done].
    + eexists _, _. split; [by apply (store_returns _ _ _ _ _ _ _ Ht Hb Hib)|].
      cbn [database stdout recorded_output returns_key].
      rewrite (encode_text _ _ (encode_next_key w)).
      split; [|split; [done|eauto using encode_next_key]].
      destruct (tracked_step _ _ _ _ (recorded_input [data]) Ht) as (Hc & Hi & Ho).
      repeat split.
      * by do 2 rewrite counter_insert_ne by keys_ne.
      * by do 2 rewrite history_insert_ne by keys_ne.
      * apply history_insert.
  - eexists _, _. split; [by apply (store_arity _ _ _ _ _ _ Ht Hlen Hib)|].
    cbn [database stdout recorded_output returns_key]. rewrite app_nil_r.
    split; [apply tracked_step; exact Ht|done].
Qed.

(** Any number of calls, in a world where the keys are sound. *)
Lemma invoke_all_tracked (calls : list (list value)) (w : world) (c : Z)
    (ins outs : list bytes) :
  tracked (database w) c ins outs ->
  exists rs w',
    invoke_all Cache.store cache calls w = (rs, w')
    /\ tracked (database w') (c + Z.of_nat (length calls))
         (ins ++ (recorded_input <$> calls))
         (outs ++ concat (recorded_output <$> rs))
    /\ stdout w' = stdout w
    /\ length rs = length calls
    /\ Forall returns_key rs.
Proof.
  revert w c ins outs. induction calls as [|args calls IH]; intros w c ins outs Ht.
  - exists [], w. cbn. rewrite Z.add_0_r, !app_nil_r. done.
  - destruct (store_step w args c ins outs Ht) as (r & w1 & Hr & Ht1 & Hs1 & Hk1).
    destruct (IH w1 _ _ _ Ht1) as (rs & w2 & Hrs & Ht2 & Hs2 & Hl2 & Hk2).
    exists (r :: rs), w2. cbn [invoke_all]. rewrite Hr, Hrs.
    split; [done|]. split; [|split; [congruence|split; [cbn; lia|by constructor]]].
    cbn [length fmap list_fmap concat].
    replace (c + Z.of_nat (S (length calls)))%Z with (c + 1 + Z.of_nat (length calls))%Z by lia.
    rewrite <- !app_assoc in Ht2. exact Ht2.
Qed.

Lemma init_run (w : world) :
  Cache.__init__ w =
  (Returned cache, World ∅ (wire w ++ [FLUSHDB]) (stdout w) (urandom w) (drawn w)).
Proof. reflexivity. Qed.

Lemma tracked_empty : tracked ∅ 0 [] [].
Proof. by repeat split. Qed.

(** A session always runs to its end; it leaves the keys sound. *)
Lemma session_tracked (calls : list (list value)) (w : world) :
  exists rs w',
    session calls w = Some (cache, rs, w')
    /\ tracked (database w') (Z.of_nat (length calls))
         (recorded_input <$> calls) (concat (recorded_output <$> rs))
    /\ stdout w' = stdout w
    /\ length rs = length calls
    /\ Forall returns_key rs.
Proof.
  unfold session. rewrite init_run.
  destruct (invoke_all_tracked calls
              (World ∅ (wire w ++ [FLUSHDB]) (stdout w) (urandom w) (drawn w))
              0 [] [] tracked_empty) as (rs & w' & Hrs & Ht & Hs & Hl & Hk).
  exists rs, w'. rewrite Hrs. cbn in Ht. done.
Qed.

End SessionFacts.

Section GetFacts.
Context {RT : Runtime}.

Lemma run_get {B} (key : value) (k : bytes) (K : value -> py B) (w : world) :
  Redis.encode key = inr k ->
  (x <- Redis.get key ;; K x) w =
  match database w !! k with
  | None => K VNone (received (GET k) (database w) w)
  | Some (RString b) => K (VBytes b) (received (GET k) (database w) w)
  | Some (RList _) => (Raised ResponseError, received (GET k) (database w) w)
  end.
Proof.
  intros Hk. unfold Redis.get. rewrite Hk. py_step.
  by destruct (database w !! k) as [[b|l]|].
Qed.

(** [get] on a cache: the decoder, when there is one, is applied to what
    the server answers, be it the bytes or [None]. *)
Lemma get_run (key : value) (k : bytes) (method : option (value -> py value))
    (w : world) :
  Redis.encode key = inr k ->
  Cache.get cache key method w =
  match database w !! k with
  | None =>
      match method with
      | Some f => f VNone (received (GET k) (database w) w)
      | None => (Returned VNone, received (GET k) (database w) w)
      end
  | Some (RString b) =>
      match method with
      | Some f => f (VBytes b) (received (GET k) (database w) w)
      | None => (Returned (VBytes b), received (GET k) (database w) w)
      end
  | Some (RList _) => (Raised ResponseError, received (GET k) (database w) w)
  end.
Proof.
  intros Hk. unfold Cache.get, client_of, cache. py_norm.
  rewrite (run_get _ _ _ _ Hk).
  destruct (database w !! k) as [[b|l]|]; by destruct method.
Qed.

Lemma valid_receiver (self : object) : _redis self = Some Redis_client -> self = cache.
Proof. destruct self as [r]. cbn. by intros ->. Qed.

End GetFacts.

(** C10: for a key absent from the store, [get] without a decoder returns
    the sentinel [None]; with a decoder, the decoder is applied to the
    sentinel: [get_int] raises [TypeError] and [get_str] returns the text
    "None". *)
Theorem get_absent_key {RT : Runtime} (self : object) (key : value) (k : bytes)
    (w : world) :
  _redis self = Some Redis_client ->
  Redis.encode key = inr k ->
  database w !! k = None ->
  fst (Cache.get self key None w) = Returned VNone
  /\ (forall f, Cache.get self key (Some f) w = f VNone (received (GET k) (database w) w))
  /\ fst (Cache.get_int self key w) = Raised TypeError
  /\ fst (Cache.get_str self key w) = Returned (VStr (u "None")).
Proof.
  intros ->%valid_receiver Hk Hdb. unfold Cache.get_int, Cache.get_str.
  rewrite !(get_run _ _ _ _ Hk), Hdb. repeat split.
  intros f. by rewrite (get_run _ _ _ _ Hk), Hdb.
Qed.

Lemma get_absent_key_witness :
  fst (Cache.get (RT := sample_runtime) cache (VStr (u "nowhere")) None sample_world)
  = Returned VNone
  /\ fst (Cache.get_int (RT := sample_runtime) cache (VStr (u "nowhere")) sample_world)
     = Raised TypeError
  /\ fst (Cache.get_str (RT := sample_runtime) cache (VStr (u "nowhere")) sample_world)
     = Returned (VStr (u "None")).
Proof.
  destruct (get_absent_key (RT := sample_runtime) cache (VStr (u "nowhere"))
              "nowhere" sample_world) as (H1 & _ & H2 & H3);
    [reflexivity|reflexivity|reflexivity|].
  exact (conj H1 (conj H2 H3)).
Defined.

Section Supported.
Context {RT : Runtime}.

(** The four supported types have an encoding: bytes are kept, an integer
    is written in decimal and read back by [int], a float is written by
    its [repr], and a text of scalar values is written in UTF-8 and read
    back by [decode]. *)
Lemma supported_encoding (v : value) :
  match v with
  | VBytes b => Redis.encode v = inr b
  | VInt z =>
      exists b, Redis.encode v = inr b /\ Builtins.int (VBytes b) = inr z
  | VFloat f => exists b, Redis.encode v = inr b
  | VStr s =>
      Forall (fun c => Utf8.scalar c = true) s ->
      exists b, Redis.encode v = inr b /\ Utf8.decode b = Some s
  | VNone | VBool _ => True
  end.
Proof.
  destruct v as [| |z|f|s|b]; try done.
  - exists (bytes_of_values (Numeral.repr_int z)). cbn [Redis.encode Builtins.repr].
    rewrite (encode_ascii _ (repr_int_ascii z)). split; [done|].
    apply integer_of_int, integer_of_repr.
  - cbn [Redis.encode].
    destruct (encode_scalar _ (repr_scalar (VFloat f))) as [b ->]. eauto.
  - intros Hs. destruct (encode_scalar _ Hs) as [b Hb]. exists b.
    cbn [Redis.encode]. rewrite Hb. split; [done|by apply decode_encode].
Qed.

End Supported.

Section StoredFormFacts.
Context {RT : Runtime}.

Lemma stored_form_encode (v : value) (b : bytes) :
  stored_form v = Some b -> Redis.encode v = inr b.
Proof.
  destruct v as [| |z|f|s|b']; cbn [stored_form Redis.encode Builtins.repr];
    try done.
  - destruct (within_limit (VInt z)); [|done]. by intros ->.
  - by intros ->.
  - by intros ->.
  - by intros [= ->].
Qed.

(** The values that have a stored form: bytes, a text of scalar values (read
    back by [decode]), an integer within the limit (read back by [int]) and
    a float. *)
Lemma stored_form_supported (v : value) :
  match v with
  | VBytes b => stored_form v = Some b
  | VStr s =>
      Forall (fun c => Utf8.scalar c = true) s ->
      exists b, stored_form v = Some b /\ Utf8.decode b = Some s
  | VInt z =>
      within_limit v = true ->
      exists b, stored_form v = Some b /\ Builtins.int (VBytes b) = inr z
  | VFloat f => is_Some (stored_form v)
  | VNone | VBool _ => stored_form v = None
  end.
Proof.
  destruct v as [| |z|f|s|b]; try done.
  - intros Hz. cbn [stored_form]. rewrite Hz.
    rewrite (encode_ascii _ (repr_int_ascii z)). eexists. split; [done|].
    apply integer_of_int, integer_of_repr.
  - cbn [stored_form]. apply encode_scalar, scalar_bytes, byte_values_bound.
  - intros Hs. cbn [stored_form]. destruct (encode_scalar _ Hs) as [b Hb].
    exists b. split; [done|by apply decode_encode].
Qed.

End StoredFormFacts.




(** A boolean is an [int] for Python, and the client refuses it. *)
Example store_refuses_boolean :
  fst (__call__ (Cache.store (RT := sample_runtime)) cache [VBool true]
         (World ∅ [FLUSHDB] [] (urandom sample_world) 0))
  = Raised DataError.
Proof. vm_compute. reflexivity. Qed.

(** C1, as the code has it: after [store("foo")] returns the key, [get]
    returns the bytes of "foo" and [get(key, int)] raises [ValueError], but
    [get_str] returns the text of the bytes literal, "b'foo'", not "foo". *)
Theorem foo_scenario {RT : Runtime} (w : world) :
  exists self key w1,
    session [[VStr (u "foo")]] w = Some (self, [Returned key], w1)
    /\ fst (Cache.get self key None w1) = Returned (VBytes "foo")
    /\ fst (Cache.get_str self key w1) = Returned (VStr (u "b'foo'"))
    /\ fst (Cache.get_int self key w1) = Raised ValueError
    /\ fst (Cache.get_str self key w1) <> Returned (VStr (u "foo")).
Proof.
  unfold session. rewrite init_run. cbn [invoke_all].
  erewrite store_returns;
    [|apply tracked_empty|reflexivity|apply (recorded_input_spec [VStr (u "foo")])].
  eexists _, _, _. split; [reflexivity|].
  unfold Cache.get_str, Cache.get_int.
  rewrite !(get_run _ _ _ _ (encode_text _ _ (encode_next_key _))).
  cbn [database]. rewrite lookup_insert_ne by keys_ne.
  rewrite lookup_insert_eq. by repeat split.
Qed.

Section ReplayFacts.
Context {RT : Runtime}.

Lemma run_exists {B} (name : text) (k : bytes) (K : Z -> py B) (w : world) :
  Utf8.encode name = Some k ->
  (x <- Redis.exists_ (VStr name) ;; K x) w =
  K (if database w !! k is Some _ then 1 else 0)%Z
    (received (EXISTS k) (database w) w).
Proof. intros Hk. unfold Redis.exists_. rewrite (encode_text _ _ Hk). done. Qed.

Lemma slice_all {A} (l : list A) : Redis.slice l 0 (-1) = l.
Proof.
  unfold Redis.slice. cbn [Z.ltb Z.compare].
  destruct l as [|x l]; [done|].
  replace (Z.min _ _) with (Z.of_nat (length l)) by (cbn [length]; lia).
  replace (Z.max 0 0) with 0%Z by done.
  destruct (Z.ltb_spec (Z.of_nat (length l)) 0); [lia|].
  cbn [Z.to_nat drop]. rewrite Z.sub_0_r.
  replace (Z.to_nat (Z.of_nat (length l) + 1)) with (length (x :: l)) by (cbn; lia).
  apply firstn_all.
Qed.

Lemma run_lrange {B} (name : text) (k : bytes) (l : list bytes)
    (K : list bytes -> py B) (w : world) :
  Utf8.encode name = Some k ->
  history (database w) k = Some l ->
  (x <- Redis.lrange (VStr name) 0 (-1) ;; K x) w =
  K l (received (LRANGE k 0 (-1)) (database w) w).
Proof.
  intros Hk Hl. unfold Redis.lrange. rewrite (encode_text _ _ Hk). py_step.
  unfold history in Hl. destruct (database w !! k) as [[b|l']|]; [done| |].
  - injection Hl as ->. by rewrite slice_all.
  - by injection Hl as <-.
Qed.

Lemma run_print {B} (line : text) (K : unit -> py B) (w : world) :
  (x <- print line ;; K x) w =
  K tt (World (database w) (wire w) (stdout w ++ [line]) (urandom w) (drawn w)).
Proof. reflexivity. Qed.

(** The loop of [replay] over pairs that decode. *)
Lemma for_each_prints (name : text) (pairs : list (bytes * bytes))
    (texts : list (text * text)) (w : world) :
  Forall2 (fun p t => Utf8.decode p.1 = Some t.1 /\ Utf8.decode p.2 = Some t.2)
          pairs texts ->
  for_each pairs (fun '(i, o) =>
    i' <- decode i ;; o' <- decode o ;;
    print (name ++ u "(*" ++ i' ++ u ") -> " ++ o')) w =
  (Returned tt,
   World (database w) (wire w)
     (stdout w ++ ((fun t => replay_line name t.1 t.2) <$> texts))
     (urandom w) (drawn w)).
Proof.
  intros H. revert w. induction H as [|[i o] [i' o'] pairs texts [Hi Ho] _ IH]; intros w.
  - cbn. rewrite app_nil_r. by destruct w.
  - cbn [for_each]. cbn [fst snd] in Hi, Ho. unfold decode at 1 2.
    rewrite Hi, Ho. py_norm.
    rewrite run_print, IH. cbn [database wire stdout urandom drawn fmap list_fmap].
    by rewrite <- app_assoc.
Qed.

(** [replay] in a world where the keys are sound and the counter is not
    zero. *)
Lemma replay_tracked (w : world) (c : Z) (ins outs : list bytes)
    (texts : list (text * text)) :
  tracked (database w) c ins outs ->
  c <> 0%Z ->
  Forall2 (fun p t => Utf8.decode p.1 = Some t.1 /\ Utf8.decode p.2 = Some t.2)
          (zip ins outs) texts ->
  replay (Bound_method cache Cache.store) w =
  (Returned tt,
   World (database w)
     (wire w ++ [EXISTS "Cache.store"; GET "Cache.store";
                 LRANGE "Cache.store:inputs" 0 (-1);
                 LRANGE "Cache.store:outputs" 0 (-1)])
     (stdout w ++ replay_header (u "Cache.store") c
        :: ((fun t => replay_line (u "Cache.store") t.1 t.2) <$> texts))
     (urandom w) (drawn w)).
Proof.
  intros (Hc & Hi & Ho) Hne Hd. unfold replay, cache. cbn [_redis __qualname__ Cache.store count_calls call_history Cache.store_body].
  rewrite (run_exists _ _ _ _ encode_store_name).
  unfold counter in Hc. destruct (database w !! "Cache.store") as [[b|l]|] eqn:Hdb;
    [|done|by injection Hc as <-].
  change (0 <? 1)%Z with true. cbv iota.
  rewrite run_assoc, (run_get _ _ _ _ (encode_text _ _ encode_store_name)).
  cbn [database received]. rewrite Hdb, (integer_of_int _ _ Hc).
  py_norm.
  destruct (Z.eqb_spec c 0) as [|_]; [done|].
  rewrite run_print. cbn [database wire stdout urandom drawn received].
  erewrite run_lrange; [|apply encode_inputs_key|exact Hi].
  erewrite run_lrange; [|apply encode_outputs_key|exact Ho].
  rewrite (for_each_prints _ _ _ _ Hd).
  cbn [database wire stdout urandom drawn received].
  by rewrite <- !app_assoc.
Qed.

End ReplayFacts.

Section HistoryFacts.
Context {RT : Runtime}.

Lemma all_raised (calls : list (list value)) (rs : list (outcome value)) :
  forallb raised rs = true ->
  concat (recorded_output <$> rs) = [] /\ successful_calls calls rs = [].
Proof.
  revert calls. induction rs as [|[v|e] rs IH]; intros calls H.
  - by destruct calls.
  - done.
  - cbn in H. destruct (IH (tail calls) H) as [H1 H2]. split; [done|].
    destruct calls as [|args calls]; [done|]. apply (IH calls H).
Qed.

Lemma zip_nil_r {A B} (l : list A) : zip l (@nil B) = [].
Proof. by destruct l. Qed.

(** When no failure precedes a success, the two lists pair each recorded
    input with the output of the same call. *)
Lemma aligned_history (calls : list (list value)) (rs : list (outcome value)) :
  length rs = length calls ->
  Forall returns_key rs ->
  failures_last rs = true ->
  Forall2 (fun p t => Utf8.decode p.1 = Some t.1 /\ Utf8.decode p.2 = Some t.2)
    (zip (recorded_input <$> calls) (concat (recorded_output <$> rs)))
    ((fun '(args, v) => (Builtins.str_tuple args, Builtins.str v))
     <$> successful_calls calls rs).
Proof.
  revert calls. induction rs as [|r rs IH]; intros calls Hlen Hk Hf.
  - cbn. rewrite zip_nil_r. by destruct calls.
  - destruct calls as [|args calls]; [done|].
    injection Hlen as Hlen. inversion Hk as [|? ? Hr Hk']; subst.
    destruct r as [v|e].
    + destruct Hr as (s & b & -> & Hb).
      cbn [fmap list_fmap concat recorded_output successful_calls].
      rewrite (encode_text _ _ Hb). cbn [app zip zip_with].
      constructor; [|by apply IH].
      cbn [fst snd Builtins.str]. split.
      * apply decode_encode, recorded_input_spec.
      * by apply decode_encode.
    + cbn [failures_last] in Hf.
      destruct (all_raised calls rs Hf) as [H1 H2].
      cbn [fmap list_fmap concat recorded_output successful_calls app].
      rewrite H1, H2, zip_nil_r. constructor.
Qed.

Lemma all_returned (rs : list (outcome value)) :
  Forall (fun r => returned r = true) rs ->
  Forall returns_key rs ->
  Forall2 (fun r o => exists key, r = Returned (VStr key) /\ Utf8.encode key = Some o)
    rs (concat (recorded_output <$> rs)).
Proof.
  induction 1 as [|r rs Hr _ IH]; intros Hk; [constructor|].
  destruct r as [v|e]; [|done].
  inversion Hk as [|? ? Hv Hk']; subst.
  destruct Hv as (s & b & -> & Hb).
  cbn [fmap list_fmap concat recorded_output]. rewrite (encode_text _ _ Hb).
  constructor; [eauto|by apply IH].
Qed.

End HistoryFacts.

(** C2: after a new cache and [n] consecutive calls of [store], with any
    arguments, the counter of [Cache.store] reads [n], whether the calls
    returned or raised after the increment. *)
Theorem counter_counts_attempts {RT : Runtime} (calls : list (list value))
    (w : world) :
  exists self rs w',
    session calls w = Some (self, rs, w')
    /\ length rs = length calls
    /\ counter (database w') "Cache.store" = Some (Z.of_nat (length calls)).
Proof.
  destruct (session_tracked calls w) as (rs & w' & Hs & (Hc & _) & _ & Hl & _).
  by exists cache, rs, w'.
Qed.

(** Calls that raise are counted: the first call below is refused by the
    client after the increment, the second returns. *)
Example refused_call_is_counted :
  exists self e key w',
    session (RT := sample_runtime) refused_then_stored sample_world
    = Some (self, [Raised e; Returned key], w')
    /\ counter (database w') "Cache.store" = Some 2%Z.
Proof. eexists _, _, _, _. split; vm_compute; reflexivity. Qed.

(** C3: after [n] calls that all returned, the inputs list and the outputs
    list have length [n], and the i-th output is the key the i-th call
    returned. *)
Theorem history_records_calls {RT : Runtime} (calls : list (list value))
    (w w' : world) (self : object) (rs : list (outcome value)) :
  session calls w = Some (self, rs, w') ->
  Forall (fun r => returned r = true) rs ->
  exists ins outs,
    history (database w') "Cache.store:inputs" = Some ins
    /\ history (database w') "Cache.store:outputs" = Some outs
    /\ length ins = length calls
    /\ length outs = length calls
    /\ Forall2 (fun r o => exists key, r = Returned (VStr key) /\ Utf8.encode key = Some o)
         rs outs.
Proof.
  intros Hs Hr.
  destruct (session_tracked calls w) as (rs' & w1 & Hs' & (_ & Hi & Ho) & _ & Hl & Hk).
  rewrite Hs in Hs'. injection Hs' as -> -> ->.
  pose proof (all_returned rs' Hr Hk) as H2.
  eexists _, _. split; [exact Hi|]. split; [exact Ho|].
  split; [by rewrite length_fmap|]. split; [|exact H2].
  by rewrite <- (Forall2_length _ _ _ H2).
Qed.

Lemma history_records_calls_witness :
  exists self rs w' ins outs,
    session (RT := sample_runtime) three_calls sample_world = Some (self, rs, w')
    /\ history (database w') "Cache.store:inputs" = Some ins
    /\ history (database w') "Cache.store:outputs" = Some outs
    /\ length ins = 3%nat
    /\ length outs = 3%nat
    /\ Forall2 (fun r o => exists key, r = Returned (VStr key) /\ Utf8.encode key = Some o)
         rs outs.
Proof.
  eexists _, _, _.
  assert (Hs : session (RT := sample_runtime) three_calls sample_world = Some (_, _, _))
    by (vm_compute; reflexivity).
  destruct (history_records_calls (RT := sample_runtime) three_calls sample_world
              _ _ _ Hs) as (ins & outs & H);
    [repeat constructor|].
  exists ins, outs. exact (conj Hs H).
Defined.

(** C5, amended: when no call that raised comes before a call that
    returned, [replay] prints the header with the number of calls, then one
    line per call that returned, with the arguments and the key of that
    call, in invocation order. *)
Theorem replay_shows_calls {RT : Runtime} (calls : list (list value))
    (w w1 : world) (self : object) (rs : list (outcome value)) :
  session calls w = Some (self, rs, w1) ->
  calls <> [] ->
  failures_last rs = true ->
  replay_shows self calls rs w1.
Proof.
  intros Hs Hne Hf.
  destruct (session_tracked calls w) as (rs' & w' & Hs' & Ht & _ & Hl & Hk).
  rewrite Hs in Hs'. injection Hs' as -> -> ->.
  unfold replay_shows.
  erewrite replay_tracked; [|exact Ht|by destruct calls|by apply aligned_history].
  split; [done|]. cbn [stdout]. do 2 f_equal.
  rewrite <- list_fmap_compose. apply list_fmap_ext. by intros ? [args v].
Qed.

Lemma replay_shows_calls_witness :
  exists self rs w1,
    session (RT := sample_runtime) three_calls sample_world = Some (self, rs, w1)
    /\ replay_shows (RT := sample_runtime) self three_calls rs w1.
Proof.
  eexists _, _, _.
  assert (Hs : session (RT := sample_runtime) three_calls sample_world = Some (_, _, _))
    by (vm_compute; reflexivity).
  split; [exact Hs|].
  apply (replay_shows_calls (RT := sample_runtime) three_calls sample_world _ _ _ Hs);
    [discriminate|reflexivity].
Defined.

(** C5, as stated, fails: a call that raised leaves its input in the
    inputs list, and [replay] pairs it with the key of the next call. *)
Lemma replay_pairs_by_position :
  exists self rs w1,
    session (RT := sample_runtime) refused_then_stored sample_world = Some (self, rs, w1)
    /\ ~ replay_shows (RT := sample_runtime) self refused_then_stored rs w1.
Proof.
  eexists _, _, _. split; [vm_compute; reflexivity|].
  intros H. vm_compute in H. destruct H as [_ H]. discriminate H.
Qed.

(** What is printed in that run: the arguments of the refused call beside
    the key that the call of [store(10)] returned. *)
Example replay_of_refused_then_stored :
  match session (RT := sample_runtime) refused_then_stored sample_world with
  | Some (self, rs, w1) =>
      rs = [Raised UnicodeEncodeError;
            Returned (VStr (u "d74f7021-3b5a-43a3-8168-01809fa86190"))]
      /\ bytes_of_values
         <$> stdout (snd (replay (RT := sample_runtime)
                          (Bound_method self (Cache.store (RT := sample_runtime))) w1))
         = ["Cache.store was called 2 times:";
            "Cache.store(*('\ud800',)) -> d74f7021-3b5a-43a3-8168-01809fa86190"]
  | None => False
  end.
Proof. vm_compute. split; reflexivity. Qed.

(** C6: [replay] returns at once, leaving the world as it is (nothing
    printed, no command sent, no exception), when it is handed [None], a
    function with no receiver, a method whose receiver has no attribute
    [_redis], or one whose [_redis] is not a [redis.Redis]. *)
Theorem replay_silent {RT : Runtime} (w : world) :
  replay None_object w = (Returned tt, w)
  /\ (forall f, replay (Function f) w = (Returned tt, w))
  /\ (forall f, replay (Bound_method (Object None) f) w = (Returned tt, w))
  /\ (forall v f,
        replay (Bound_method (Object (Some (Not_redis v))) f) w = (Returned tt, w)).
Proof. repeat split. Qed.

(** C7: when the counter key of the operation is absent from the store, or
    holds a count of zero, [replay] returns having printed nothing, whatever
    the receiver. *)
Theorem replay_nothing_recorded {RT : Runtime} (self : object) (f : pyfunction)
    (k : bytes) (w : world) :
  Utf8.encode (__qualname__ f) = Some k ->
  database w !! k = None
  \/ (exists b, database w !! k = Some (RString b)
                /\ Builtins.int (VBytes b) = inr 0%Z) ->
  exists w',
    replay (Bound_method self f) w = (Returned tt, w')
    /\ stdout w' = stdout w
    /\ database w' = database w.
Proof.
  intros Hk Hdb. destruct self as [[[|v]|]]; [|by exists w..].
  unfold replay. cbn [_redis].
  rewrite (run_exists _ _ _ _ Hk).
  destruct Hdb as [Hdb|(b & Hdb & Hb)]; rewrite Hdb.
  - change (0 <? 0)%Z with false. cbv iota. py_norm. eauto.
  - change (0 <? 1)%Z with true. cbv iota.
    rewrite run_assoc, (run_get _ _ _ _ (encode_text _ _ Hk)).
    cbn [database received]. rewrite Hdb, Hb. py_norm. eauto.
Qed.

Lemma replay_nothing_recorded_witness :
  exists w',
    replay (RT := sample_runtime)
      (Bound_method cache (Cache.store (RT := sample_runtime))) sample_world
    = (Returned tt, w')
    /\ stdout w' = stdout sample_world
    /\ database w' = database sample_world.
Proof.
  apply (replay_nothing_recorded (RT := sample_runtime) cache
           (Cache.store (RT := sample_runtime)) "Cache.store" sample_world);
    [reflexivity|left; reflexivity].
Defined.

(** C8: on a receiver whose [_redis] is not a [redis.Redis], the wrapper
    of [call_history] returns [None] and leaves the world as it is, whatever
    the wrapped function would do; the wrapper of [count_calls] sends no
    INCR and only calls the wrapped function; so [Cache.store] returns
    [None] with nothing sent to the server. *)
Theorem invalid_handle_short_circuit {RT : Runtime} (v : value)
    (method : pyfunction) (args : list value) (w : world) :
  let self := Object (Some (Not_redis v)) in
  __call__ (call_history method) self args w = (Returned VNone, w)
  /\ __call__ (count_calls method) self args w = __call__ method self args w
  /\ __call__ Cache.store self args w = (Returned VNone, w).
Proof.
  cbn zeta. repeat split.
Qed.

(** C9: one call of [Cache.store], in a world where the keys are sound:
    the server receives INCR on the counter first, then RPUSH of the
    arguments on the inputs list, then the SET of the wrapped function, then
    RPUSH of the key on the outputs list, and the counter has grown by
    exactly one. When the client refuses the data, the call raises after
    the first two commands. *)
Theorem store_effects_in_order {RT : Runtime} (self : object) (data : value)
    (w : world) (c : Z) (ins outs : list bytes) :
  _redis self = Some Redis_client ->
  tracked (database w) c ins outs ->
  let w' := snd (__call__ Cache.store self [data] w) in
  wire w' =
    wire w
    ++ [INCR "Cache.store"; RPUSH "Cache.store:inputs" (recorded_input [data])]
    ++ match Redis.encode data with
       | inr b => [SET (next_key_bytes w) b;
                   RPUSH "Cache.store:outputs" (next_key_bytes w)]
       | inl _ => []
       end
  /\ counter (database w') "Cache.store" = Some (c + 1)%Z
  /\ fst (__call__ Cache.store self [data] w) =
     match Redis.encode data with
     | inr _ => Returned (VStr (next_key w))
     | inl e => Raised e
     end.
Proof.
  intros ->%valid_receiver Ht. cbn zeta.
  pose proof (recorded_input_spec [data]) as Hib.
  destruct (Redis.encode data) as [e|b] eqn:Hb.
  - rewrite (store_refused _ _ _ _ _ _ _ Ht Hb Hib). cbn [fst snd wire database].
    repeat split. apply (tracked_step _ _ _ _ _ Ht).
  - rewrite (store_returns _ _ _ _ _ _ _ Ht Hb Hib). cbn [fst snd wire database].
    repeat split. do 2 rewrite counter_insert_ne by keys_ne.
    apply (tracked_step _ _ _ _ (recorded_input [data]) Ht).
Qed.

Lemma store_effects_in_order_witness :
  let w := World ∅ [FLUSHDB] [] (urandom sample_world) 0 in
  let w' := snd (__call__ (Cache.store (RT := sample_runtime)) cache [VInt 10] w) in
  wire w' =
    [FLUSHDB; INCR "Cache.store"; RPUSH "Cache.store:inputs" "(10,)";
     SET "6ba7b810-9dad-41d1-80b4-00c04fd430c8" "10";
     RPUSH "Cache.store:outputs" "6ba7b810-9dad-41d1-80b4-00c04fd430c8"]
  /\ counter (database w') "Cache.store" = Some 1%Z.
Proof.
  cbn zeta.
  destruct (store_effects_in_order (RT := sample_runtime) cache (VInt 10)
              (World ∅ [FLUSHDB] [] (urandom sample_world) 0) 0 [] [])
    as (H1 & H2 & _); [reflexivity|repeat split|].
  split; [exact H1|exact H2].
Defined.

Section CountCallsFacts.
Context {RT : Runtime}.

(** X1: the wrapper of [count_calls], for any wrapped function: the function
    runs in the world where the counter has already grown; what it does
    there, returning or raising, comes after the increment. *)
Lemma count_calls_increments_first (method : pyfunction) (k : bytes) (c : Z)
    (args : list value) (w : world) :
  Utf8.encode (__qualname__ method) = Some k ->
  counter (database w) k = Some c ->
  __call__ (count_calls method) cache args w =
  __call__ method cache args
    (received (INCR k)
       (<[k := RString (bytes_of_values (Numeral.repr_int (c + 1)))]> (database w))
       w).
Proof.
  intros Hk Hc. unfold count_calls, cache. py_norm.
  by rewrite (run_incr _ _ _ _ _ Hk Hc).
Qed.

End CountCallsFacts.

(** * Further properties of the decorators *)

Lemma count_calls_increments_first_witness :
  __call__ (count_calls (RT := sample_runtime) returns_none) cache [] sample_world
  = (Returned VNone,
     World {["returns_none" := RString "1"]} [INCR "returns_none"] []
       (urandom sample_world) 0).
Proof.
  rewrite (count_calls_increments_first (RT := sample_runtime) returns_none
             "returns_none" 0 [] sample_world); reflexivity.
Defined.

(** X2: the wrapper of [call_history], for any wrapped function: when the
    function raises, the wrapper raises the same exception and leaves the
    world as the function left it; the arguments were pushed on the inputs
    list before the function ran, and nothing is pushed on the outputs
    list. *)
Theorem call_history_propagates {RT : Runtime} (method : pyfunction)
    (args : list value) (kin : bytes) (ins : list bytes) (e : exn)
    (w w2 : world) :
  Utf8.encode (__qualname__ method ++ u ":inputs") = Some kin ->
  history (database w) kin = Some ins ->
  __call__ method cache args
    (received (RPUSH kin (recorded_input args))
       (<[kin := RList (ins ++ [recorded_input args])]> (database w)) w)
  = (Raised e, w2) ->
  __call__ (call_history method) cache args w = (Raised e, w2).
Proof.
  intros Hk Hi Hm. unfold call_history, cache in *. py_norm.
  erewrite run_rpush;
    [|exact Hk|apply encode_text, recorded_input_spec|exact Hi].
  cbv beta. unfold bind at 1. by rewrite Hm.
Qed.

Lemma call_history_propagates_witness :
  exists w2,
    __call__ (call_history (RT := sample_runtime) (Cache.store_body (RT := sample_runtime)))
      cache [VStr [0xD800]] sample_world
    = (Raised UnicodeEncodeError, w2)
    /\ history (database w2) "Cache.store:outputs" = Some [].
Proof.
  eexists. split.
  - apply (call_history_propagates (RT := sample_runtime)
             (Cache.store_body (RT := sample_runtime)) [VStr [0xD800]]
             "Cache.store:inputs" []);
      [reflexivity|reflexivity|vm_compute; reflexivity].
  - reflexivity.
Defined.

(** X3: the wrapper of [call_history], for any wrapped function: when the
    function returns a result that the client cannot encode, the wrapper
    raises the encoder's exception instead of returning the result, after
    the function has run; nothing is pushed on the outputs list. *)
Theorem call_history_loses_result {RT : Runtime} (method : pyfunction)
    (args : list value) (kin kout : bytes) (ins : list bytes) (v : value)
    (e : exn) (w w2 : world) :
  Utf8.encode (__qualname__ method ++ u ":inputs") = Some kin ->
  Utf8.encode (__qualname__ method ++ u ":outputs") = Some kout ->
  history (database w) kin = Some ins ->
  __call__ method cache args
    (received (RPUSH kin (recorded_input args))
       (<[kin := RList (ins ++ [recorded_input args])]> (database w)) w)
  = (Returned v, w2) ->
  Redis.encode v = inl e ->
  __call__ (call_history method) cache args w = (Raised e, w2).
Proof.
  intros Hk Hko Hi Hm Hv. unfold call_history, cache in *. py_norm.
  erewrite run_rpush;
    [|exact Hk|apply encode_text, recorded_input_spec|exact Hi].
  cbv beta. unfold bind at 1. rewrite Hm.
  unfold Redis.rpush. rewrite (encode_text _ _ Hko), Hv. reflexivity.
Qed.

Lemma call_history_loses_result_witness :
  exists w2,
    __call__ (call_history (RT := sample_runtime) returns_none) cache [] sample_world
    = (Raised DataError, w2)
    /\ database w2 = {["returns_none:inputs" := RList ["()"]]}.
Proof.
  eexists. split.
  - apply (call_history_loses_result (RT := sample_runtime) returns_none []
             "returns_none:inputs" "returns_none:outputs" [] VNone);
      reflexivity.
  - reflexivity.
Defined.

(** * Further properties of the cache *)

Section StoreGetFacts.
Context {RT : Runtime}.

(** A call of [store] with data that has an encoding, in a world where the
    keys are sound: the key returned, what it holds, and the keys after. *)
Lemma store_then_lookup (w : world) (v : value) (b : bytes) (c : Z)
    (ins outs : list bytes) :
  tracked (database w) c ins outs ->
  Redis.encode v = inr b ->
  exists w2,
    __call__ Cache.store cache [v] w = (Returned (VStr (next_key w)), w2)
    /\ database w2 !! next_key_bytes w = Some (RString b)
    /\ tracked (database w2) (c + 1) (ins ++ [recorded_input [v]])
         (outs ++ [next_key_bytes w])
    /\ stdout w2 = stdout w
    /\ urandom w2 = urandom w
    /\ drawn w2 = S (drawn w).
Proof.
  intros Ht Hb. eexists. split;
    [apply (store_returns _ _ _ _ _ _ _ Ht Hb (recorded_input_spec [v]))|].
  cbn [database stdout urandom drawn].
  split; [by rewrite lookup_insert_ne, lookup_insert_eq by keys_ne|].
  split; [|done].
  destruct (tracked_step _ _ _ _ (recorded_input [v]) Ht) as (Hc & Hi & Ho).
  repeat split.
  - by do 2 rewrite counter_insert_ne by keys_ne.
  - by do 2 rewrite history_insert_ne by keys_ne.
  - apply history_insert.
Qed.

(** What [get] finds under a generated key. *)
Lemma get_generated_key (w0 w : world) (method : option (value -> py value))
    (b : bytes) :
  database w !! next_key_bytes w0 = Some (RString b) ->
  Cache.get cache (VStr (next_key w0)) method w =
  match method with
  | Some f => f (VBytes b) (received (GET (next_key_bytes w0)) (database w) w)
  | None => (Returned (VBytes b), received (GET (next_key_bytes w0)) (database w) w)
  end.
Proof.
  intros Hdb.
  by rewrite (get_run _ _ _ _ (encode_text _ _ (encode_next_key w0))), Hdb.
Qed.

Lemma length_concat_ge {A B} (f : A -> list B) (l : list A) :
  (forall x, f x <> []) -> (length l <= length (concat (f <$> l)))%nat.
Proof.
  intros Hf. induction l as [|x l IH]; [done|].
  cbn [fmap list_fmap concat length]. rewrite length_app.
  specialize (Hf x). destruct (f x); [done|]. cbn [length]. lia.
Qed.

Lemma escape_byte_nonempty (q c : N) : Builtins.escape_byte q c <> [].
Proof.
  unfold Builtins.escape_byte, Builtins.backslash_x. by repeat case_match.
Qed.

(** The text of a bytes literal is longer than the bytes by the prefix and
    the two quotes at least. *)
Lemma length_repr_bytes (b : bytes) :
  (length (byte_values b) + 3 <= length (Builtins.repr_bytes b))%nat.
Proof.
  unfold Builtins.repr_bytes. cbn zeta. rewrite !length_app. cbn [length].
  pose proof (length_concat_ge
                (Builtins.escape_byte (Builtins.quote_of (byte_values b)))
                (byte_values b) (escape_byte_nonempty _)).
  lia.
Qed.

Lemma length_encode_values (s : text) (l : list N) :
  Utf8.encode_values s = Some l -> (length s <= length l)%nat.
Proof.
  revert l. induction s as [|c s IH]; intros l; cbn [Utf8.encode_values].
  - intros [= <-]. done.
  - destruct (Utf8.encode_char c) as [lc|] eqn:Ec; [|done].
    destruct (Utf8.encode_values s) as [ls|] eqn:Es; [|done].
    intros [= <-]. rewrite length_app. specialize (IH ls eq_refl).
    assert (lc <> []).
    { unfold Utf8.encode_char in Ec. by repeat case_match; simplify_eq. }
    destruct lc; [done|]. cbn [length]. lia.
Qed.

(** An encoding has at least as many bytes as the text has code points. *)
Lemma length_encode (s : text) (b : bytes) :
  Utf8.encode s = Some b -> (length s <= length (byte_values b))%nat.
Proof.
  unfold Utf8.encode. destruct (Utf8.encode_values s) as [l|] eqn:E; [|done].
  intros [= <-]. destruct (decode_encode_values _ _ E) as [_ Hb].
  rewrite byte_values_of_values by done. by apply length_encode_values.
Qed.

Lemma length_recorded_outputs (rs : list (outcome value)) :
  Forall returns_key rs ->
  length (concat (recorded_output <$> rs)) = length (List.filter returned rs).
Proof.
  induction 1 as [|r rs Hr _ IH]; [done|].
  cbn [fmap list_fmap concat List.filter]. rewrite length_app, IH.
  destruct r as [v|e]; [|done].
  destruct Hr as (s & b & -> & Hb). cbn [recorded_output].
  by rewrite (encode_text _ _ Hb).
Qed.

End StoreGetFacts.

(** X4: an integer within the conversion limit of the interpreter, stored
    and read back with [get_int], is the same integer, whatever was stored
    before. *)
Theorem get_int_store_round_trip {RT : Runtime} (calls : list (list value))
    (w : world) (z : Z) :
  within_limit (VInt z) = true ->
  exists self rs w1 key w2 w3,
    session calls w = Some (self, rs, w1)
    /\ __call__ Cache.store self [VInt z] w1 = (Returned key, w2)
    /\ Cache.get_int self key w2 = (Returned (VInt z), w3).
Proof.
  intros Hz.
  destruct (session_tracked calls w) as (rs & w1 & Hs & Ht & _).
  destruct (stored_form_supported (VInt z) Hz) as (b & Hb%stored_form_encode & Hi).
  destruct (store_then_lookup w1 _ _ _ _ _ Ht Hb) as (w2 & Hr & Hdb & _).
  eexists cache, rs, w1, _, w2, _. split; [exact Hs|]. split; [exact Hr|].
  unfold Cache.get_int. rewrite (get_generated_key _ _ _ _ Hdb).
  unfold Cache.int_class. by rewrite Hi.
Qed.

Lemma get_int_store_round_trip_witness :
  exists self rs w1 key w2 w3,
    session (RT := sample_runtime) three_calls sample_world = Some (self, rs, w1)
    /\ __call__ (Cache.store (RT := sample_runtime)) self [VInt (-40)] w1
       = (Returned key, w2)
    /\ Cache.get_int (RT := sample_runtime) self key w2 = (Returned (VInt (-40)), w3).
Proof.
  apply (get_int_store_round_trip (RT := sample_runtime) three_calls sample_world
           (-40)).
  vm_compute. reflexivity.
Defined.

(** X5: a text stored and read back with [get_str] is never the same
    text: [get_str] returns the text of the bytes literal of its encoding,
    which is longer by three characters at least. *)
Theorem get_str_store_text {RT : Runtime} (calls : list (list value))
    (w : world) (s : text) (b : bytes) :
  Utf8.encode s = Some b ->
  exists self rs w1 key w2 t w3,
    session calls w = Some (self, rs, w1)
    /\ __call__ Cache.store self [VStr s] w1 = (Returned key, w2)
    /\ Cache.get_str self key w2 = (Returned (VStr t), w3)
    /\ t = Builtins.repr (VBytes b)
    /\ (length s + 3 <= length t)%nat
    /\ t <> s.
Proof.
  intros Hb.
  destruct (session_tracked calls w) as (rs & w1 & Hs & Ht & _).
  destruct (store_then_lookup w1 _ _ _ _ _ Ht (encode_text _ _ Hb))
    as (w2 & Hr & Hdb & _).
  pose proof (length_repr_bytes b) as H1. pose proof (length_encode _ _ Hb) as H2.
  eexists cache, rs, w1, _, w2, _, _. split; [exact Hs|]. split; [exact Hr|].
  unfold Cache.get_str. rewrite (get_generated_key _ _ _ _ Hdb).
  split; [reflexivity|]. split; [reflexivity|].
  cbn [Builtins.str Builtins.repr]. split; [lia|].
  intros E. rewrite E in H1. lia.
Qed.

Lemma get_str_store_text_witness :
  exists self rs w1 key w2 w3,
    session (RT := sample_runtime) three_calls sample_world = Some (self, rs, w1)
    /\ __call__ (Cache.store (RT := sample_runtime)) self [VStr (u "foo")] w1
       = (Returned key, w2)
    /\ Cache.get_str (RT := sample_runtime) self key w2
       = (Returned (VStr (u "b'foo'")), w3).
Proof.
  destruct (get_str_store_text (RT := sample_runtime) three_calls sample_world
              (u "foo") "foo" eq_refl)
    as (self & rs & w1 & key & w2 & t & w3 & H1 & H2 & H3 & -> & _).
  exists self, rs, w1, key, w2, w3. exact (conj H1 (conj H2 H3)).
Defined.

(** X6: after a new cache and any calls of [store] with positional
    arguments, the integers among them within the conversion limit, the
    inputs list has one entry per call, returning or raising, and the
    counter reads its length; the outputs list has one entry per call that
    returned. *)
Theorem history_lengths {RT : Runtime} (calls : list (list value)) (w : world) :
  Forall (Forall (fun v => within_limit v = true)) calls ->
  exists self rs w' ins outs,
    session calls w = Some (self, rs, w')
    /\ history (database w') "Cache.store:inputs" = Some ins
    /\ history (database w') "Cache.store:outputs" = Some outs
    /\ counter (database w') "Cache.store" = Some (Z.of_nat (length ins))
    /\ length ins = length calls
    /\ length outs = length (List.filter returned rs)
    /\ (length outs <= length ins)%nat.
Proof.
  intros _.
  destruct (session_tracked calls w) as (rs & w' & Hs & (Hc & Hi & Ho) & _ & Hl & Hk).
  eexists cache, rs, w', _, _. split; [exact Hs|]. split; [exact Hi|].
  split; [exact Ho|]. rewrite length_fmap, (length_recorded_outputs _ Hk).
  split; [exact Hc|]. split; [done|]. split; [done|].
  rewrite <- Hl. apply filter_length_le.
Qed.

Lemma history_lengths_witness :
  exists self rs w' ins outs,
    session (RT := sample_runtime) refused_then_stored sample_world
    = Some (self, rs, w')
    /\ history (database w') "Cache.store:inputs" = Some ins
    /\ history (database w') "Cache.store:outputs" = Some outs
    /\ counter (database w') "Cache.store" = Some (Z.of_nat (length ins))
    /\ length ins = length refused_then_stored
    /\ length outs = length (List.filter returned rs)
    /\ (length outs <= length ins)%nat.
Proof.
  apply (history_lengths (RT := sample_runtime) refused_then_stored sample_world).
  repeat constructor.
Defined.

(** X7: an entry survives a later call of [store], returning or raising,
    as long as the later call does not generate the same key again. *)
Theorem later_store_keeps_entry {RT : Runtime} (w : world) (c : Z)
    (ins outs : list bytes) (v : value) (b : bytes) (args : list value) :
  tracked (database w) c ins outs ->
  Redis.encode v = inr b ->
  let w2 := snd (__call__ Cache.store cache [v] w) in
  let w3 := snd (__call__ Cache.store cache args w2) in
  next_key w2 <> next_key w ->
  fst (__call__ Cache.store cache [v] w) = Returned (VStr (next_key w))
  /\ fst (Cache.get cache (VStr (next_key w)) None w3) = Returned (VBytes b).
Proof.
  intros Ht Hb. cbn zeta.
  destruct (store_then_lookup w _ _ _ _ _ Ht Hb) as (w2 & Hr & Hdb & Ht2 & _).
  rewrite Hr. cbn [fst snd]. intros Hne. split; [done|].
  assert (Hkb : next_key_bytes w2 <> next_key_bytes w).
  { intros E. apply Hne. unfold next_key_bytes in E.
    apply bytes_of_values_inj in E; [done|..];
      (eapply Forall_impl; [apply uuid_str_ascii|]; intros x Hx; cbv beta in Hx; lia). }
  pose proof (recorded_input_spec args) as Hib.
  assert (Hkeep : database (snd (__call__ Cache.store cache args w2))
                  !! next_key_bytes w = Some (RString b)).
  { destruct (decide (length args = 1%nat)) as [Hlen|Hlen].
    - destruct args as [|data [|? ?]]; try done.
      destruct (Redis.encode data) as [e|b'] eqn:Hb'.
      + rewrite (store_refused _ _ _ _ _ _ _ Ht2 Hb' Hib). cbn [snd database].
        by do 2 rewrite lookup_insert_ne by keys_ne.
      + rewrite (store_returns _ _ _ _ _ _ _ Ht2 Hb' Hib). cbn [snd database].
        rewrite lookup_insert_ne by keys_ne. rewrite lookup_insert_ne by done.
        by do 2 rewrite lookup_insert_ne by keys_ne.
    - rewrite (store_arity _ _ _ _ _ _ Ht2 Hlen Hib). cbn [snd database].
      by do 2 rewrite lookup_insert_ne by keys_ne. }
  by rewrite (get_generated_key _ _ _ _ Hkeep).
Qed.

Lemma later_store_keeps_entry_witness :
  let w := World ∅ [FLUSHDB] [] (urandom sample_world) 0 in
  let w2 := snd (__call__ (Cache.store (RT := sample_runtime)) cache [VStr (u "foo")] w) in
  let w3 := snd (__call__ (Cache.store (RT := sample_runtime)) cache [VInt 10] w2) in
  fst (Cache.get (RT := sample_runtime) cache (VStr (next_key w)) None w3)
  = Returned (VBytes "foo").
Proof.
  cbn zeta.
  apply (later_store_keeps_entry (RT := sample_runtime)
           (World ∅ [FLUSHDB] [] (urandom sample_world) 0) 0 [] []
           (VStr (u "foo")) "foo" [VInt 10]);
    [repeat split|reflexivity|vm_compute; discriminate].
Defined.

(** X8: a new [Cache] empties the store: the key that an earlier cache
    returned is absent, [get] on it returns [None], and [replay] prints
    nothing, as the counter and the lists are gone. *)
Theorem new_cache_forgets {RT : Runtime} (calls : list (list value))
    (w : world) (v : value) (b : bytes) :
  Redis.encode v = inr b ->
  exists self rs w1 key w2 self' w3 w4 w5,
    session calls w = Some (self, rs, w1)
    /\ __call__ Cache.store self [v] w1 = (Returned key, w2)
    /\ Cache.__init__ w2 = (Returned self', w3)
    /\ database w3 = ∅
    /\ Cache.get self' key None w3 = (Returned VNone, w4)
    /\ replay (Bound_method self' Cache.store) w3 = (Returned tt, w5)
    /\ stdout w5 = stdout w3.
Proof.
  intros Hb.
  destruct (session_tracked calls w) as (rs & w1 & Hs & Ht & _).
  destruct (store_then_lookup w1 _ _ _ _ _ Ht Hb) as (w2 & Hr & _).
  eexists cache, rs, w1, _, w2, cache, _, _, _.
  split; [exact Hs|]. split; [exact Hr|]. split; [apply init_run|].
  split; [done|]. split.
  - by rewrite (get_run _ _ _ _ (encode_text _ _ (encode_next_key w1))).
  - unfold replay, cache.
    cbn [_redis __qualname__ Cache.store count_calls call_history Cache.store_body].
    rewrite (run_exists _ _ _ _ encode_store_name). cbn [database].
    rewrite lookup_empty. change (0 <? 0)%Z with false. cbv iota. py_norm.
    split; reflexivity.
Qed.

Lemma new_cache_forgets_witness :
  exists self rs w1 key w2 self' w3 w4,
    session (RT := sample_runtime) three_calls sample_world = Some (self, rs, w1)
    /\ __call__ (Cache.store (RT := sample_runtime)) self [VStr (u "foo")] w1
       = (Returned key, w2)
    /\ Cache.__init__ w2 = (Returned self', w3)
    /\ Cache.get (RT := sample_runtime) self' key None w3 = (Returned VNone, w4).
Proof.
  destruct (new_cache_forgets (RT := sample_runtime) three_calls sample_world
              (VStr (u "foo")) "foo" eq_refl)
    as (self & rs & w1 & key & w2 & self' & w3 & w4 & w5 & H1 & H2 & H3 & _ & H4 & _).
  exists self, rs, w1, key, w2, self', w3, w4.
  exact (conj H1 (conj H2 (conj H3 H4))).
Defined.

(** * Further properties of the readers *)

Section Frames.
Context {RT : Runtime}.

Lemma keeps_ret {A B} (part : world -> B) (a : A) : keeps part (ret a).
Proof. done. Qed.

Lemma keeps_raise {A B} (part : world -> B) (e : exn) : keeps part (@raise A e).
Proof. done. Qed.

Lemma keeps_lift {A B} (part : world -> B) (r : exn + A) : keeps part (lift r).
Proof. by destruct r. Qed.

Lemma keeps_bind {A A' B} (part : world -> B) (c : py A) (K : A -> py A') :
  keeps part c -> (forall a, keeps part (K a)) -> keeps part (x <- c ;; K x).
Proof.
  intros Hc HK w. unfold bind. specialize (Hc w).
  destruct (c w) as [[a|e] w1]; cbn [snd] in *; [|done].
  by rewrite HK.
Qed.

(** A command keeps the database when the server answers it without
    changing the database. *)
Lemma keeps_database_execute {A} (c : command)
    (serve : gmap string entry -> gmap string entry * (exn + A)) :
  (forall db, (serve db).1 = db) -> keeps database (Redis.execute c serve).
Proof.
  intros H w. unfold Redis.execute. specialize (H (database w)).
  destruct (serve (database w)) as [db [e|a]]; cbn in *; done.
Qed.

Lemma keeps_stdout_execute {A} (c : command)
    (serve : gmap string entry -> gmap string entry * (exn + A)) :
  keeps stdout (Redis.execute c serve).
Proof.
  intros w. unfold Redis.execute.
  by destruct (serve (database w)) as [db [e|a]].
Qed.

Lemma keeps_database_get (key : value) : keeps database (Redis.get key).
Proof.
  apply keeps_bind; [apply keeps_lift|]. intros k.
  apply keeps_database_execute. intros db. by repeat case_match.
Qed.

Lemma keeps_stdout_get (key : value) : keeps stdout (Redis.get key).
Proof.
  apply keeps_bind; [apply keeps_lift|]. intros k. apply keeps_stdout_execute.
Qed.

Lemma keeps_database_exists (key : value) : keeps database (Redis.exists_ key).
Proof.
  apply keeps_bind; [apply keeps_lift|]. intros k.
  by apply keeps_database_execute.
Qed.

Lemma keeps_database_lrange (key : value) (start stop : Z) :
  keeps database (Redis.lrange key start stop).
Proof.
  apply keeps_bind; [apply keeps_lift|]. intros k.
  apply keeps_database_execute. intros db. by repeat case_match.
Qed.

Lemma keeps_database_print (line : text) : keeps database (print line).
Proof. done. Qed.

Lemma keeps_decode {B} (part : world -> B) (b : bytes) : keeps part (decode b).
Proof. intros w. unfold decode. by destruct (Utf8.decode b). Qed.

Lemma keeps_for_each {A B} (part : world -> B) (l : list A) (body : A -> py unit) :
  (forall x, keeps part (body x)) -> keeps part (for_each l body).
Proof.
  intros Hb. induction l as [|x l IH]; [done|].
  cbn [for_each]. by apply keeps_bind.
Qed.

Lemma keeps_client_of {B} (part : world -> B) (self : object) :
  keeps part (client_of self).
Proof.
  destruct self as [[[|v]|]]; done.
Qed.

Lemma keeps_get {B} (part : world -> B) (self : object) (key : value)
    (method : option (value -> py value)) :
  keeps part (Redis.get key) ->
  (forall f v, method = Some f -> keeps part (f v)) ->
  keeps part (Cache.get self key method).
Proof.
  intros Hg Hf. unfold Cache.get.
  apply keeps_bind; [apply keeps_client_of|]. intros _.
  apply keeps_bind; [exact Hg|]. intros data.
  destruct method as [f|]; [by apply Hf|done].
Qed.

Lemma keeps_str_class {B} (part : world -> B) (v : value) :
  keeps part (Cache.str_class v).
Proof. done. Qed.

Lemma keeps_int_class {B} (part : world -> B) (v : value) :
  keeps part (Cache.int_class v).
Proof.
  unfold Cache.int_class. apply keeps_bind; [apply keeps_lift|]. done.
Qed.

End Frames.

(** X9: [get], [get_str] and [get_int] only read: whatever the receiver,
    the key and the store, and whether they return or raise, the database
    and the standard output are afterwards what they were. *)
Theorem getters_only_read {RT : Runtime} (self : object) (key : value) :
  (keeps database (Cache.get self key None)
   /\ keeps stdout (Cache.get self key None))
  /\ (keeps database (Cache.get_str self key)
      /\ keeps stdout (Cache.get_str self key))
  /\ (keeps database (Cache.get_int self key)
      /\ keeps stdout (Cache.get_int self key)).
Proof.
  unfold Cache.get_str, Cache.get_int.
  repeat split; apply keeps_get;
    try apply keeps_database_get; try apply keeps_stdout_get;
    intros f v [= <-] || (intros f v; discriminate);
    apply keeps_str_class || apply keeps_int_class.
Qed.

(** X10: [replay] never writes to the store: whatever it is handed and
    whatever the store holds, and whether it returns or raises, the
    database is afterwards what it was. *)
Theorem replay_only_reads {RT : Runtime} (method : callable) :
  keeps database (replay method).
Proof.
  destruct method as [|f|[[[|v]|]] f]; try done.
  unfold replay. cbn [_redis].
  apply keeps_bind; [apply keeps_database_exists|]. intros n.
  apply keeps_bind.
  { destruct (0 <? n)%Z; [|done].
    apply keeps_bind; [apply keeps_database_get|]. intros data. apply keeps_lift. }
  intros count. destruct (count =? 0)%Z; [done|].
  apply keeps_bind; [apply keeps_database_print|]. intros _.
  apply keeps_bind; [apply keeps_database_lrange|]. intros inputs.
  apply keeps_bind; [apply keeps_database_lrange|]. intros outputs.
  apply keeps_for_each. intros [i o].
  apply keeps_bind; [apply keeps_decode|]. intros i'.
  apply keeps_bind; [apply keeps_decode|]. intros o'.
  apply keeps_database_print.
Qed.

(** * Further properties of [replay] *)

Section ReplayEdges.
Context {RT : Runtime}.

(** The loop of [replay] stops at the first pair that does not decode,
    having printed the lines of the pairs before it. *)
Lemma for_each_stops (name : text) (good rest : list (bytes * bytes))
    (texts : list (text * text)) (i o : bytes) (w : world) :
  Forall2 (fun p t => Utf8.decode p.1 = Some t.1 /\ Utf8.decode p.2 = Some t.2)
          good texts ->
  Utf8.decode i = None \/ Utf8.decode o = None ->
  for_each (good ++ (i, o) :: rest) (fun '(i, o) =>
    i' <- decode i ;; o' <- decode o ;;
    print (name ++ u "(*" ++ i' ++ u ") -> " ++ o')) w =
  (Raised UnicodeDecodeError,
   World (database w) (wire w)
     (stdout w ++ ((fun t => replay_line name t.1 t.2) <$> texts))
     (urandom w) (drawn w)).
Proof.
  intros H Hbad. revert w.
  induction H as [|[i1 o1] [i1' o1'] good texts [Hi Ho] _ IH]; intros w.
  - cbn [app for_each fmap list_fmap]. rewrite app_nil_r.
    unfold decode at 1 2.
    destruct (Utf8.decode i) as [i'|] eqn:Ei.
    + destruct Hbad as [?|Eo]; [done|]. rewrite Eo. by destruct w.
    + by destruct w.
  - cbn [app for_each]. cbn [fst snd] in Hi, Ho. unfold decode at 1 2.
    rewrite Hi, Ho. py_norm. rewrite run_print, IH.
    cbn [database wire stdout urandom drawn fmap list_fmap].
    by rewrite <- app_assoc.
Qed.

Lemma decodable_pairs (ins outs : list bytes) :
  Forall (fun b => is_Some (Utf8.decode b)) ins ->
  Forall (fun b => is_Some (Utf8.decode b)) outs ->
  exists texts,
    Forall2 (fun p t => Utf8.decode p.1 = Some t.1 /\ Utf8.decode p.2 = Some t.2)
            (zip ins outs) texts.
Proof.
  intros Hi. revert outs. induction Hi as [|i ins [i' Hi'] _ IH]; intros outs Ho.
  - exists []. constructor.
  - destruct Ho as [|o outs [o' Ho'] Ho].
    + exists []. constructor.
    + destruct (IH outs Ho) as [texts Ht]. exists ((i', o') :: texts).
      by constructor.
Qed.

End ReplayEdges.

(** X11: when the counter key holds bytes that [int] cannot read, [replay]
    raises the exception of [int] and prints nothing. *)
Theorem replay_unreadable_count {RT : Runtime} (f : pyfunction) (k b : bytes)
    (e : exn) (w : world) :
  Utf8.encode (__qualname__ f) = Some k ->
  database w !! k = Some (RString b) ->
  Builtins.int (VBytes b) = inl e ->
  exists w',
    replay (Bound_method cache f) w = (Raised e, w')
    /\ stdout w' = stdout w.
Proof.
  intros Hk Hdb Hb. unfold replay, cache. cbn [_redis].
  rewrite (run_exists _ _ _ _ Hk), Hdb.
  change (0 <? 1)%Z with true. cbv iota.
  rewrite run_assoc, (run_get _ _ _ _ (encode_text _ _ Hk)).
  cbn [database received]. rewrite Hdb, Hb. py_norm. eauto.
Qed.

Lemma replay_unreadable_count_witness :
  exists w',
    replay (RT := sample_runtime)
      (Bound_method cache (Cache.store (RT := sample_runtime))) miscounted_world
    = (Raised ValueError, w')
    /\ stdout w' = stdout miscounted_world.
Proof.
  apply (replay_unreadable_count (RT := sample_runtime)
           (Cache.store (RT := sample_runtime)) "Cache.store" "many");
    reflexivity.
Defined.

(** X12: when a recorded input or output is not UTF-8, [replay] prints the
    header and the lines of the pairs before it, then raises
    [UnicodeDecodeError]; the pairs after it are not shown. *)
Theorem replay_undecodable_entry {RT : Runtime} (w : world) (c : Z)
    (ins outs : list bytes) (good rest : list (bytes * bytes))
    (texts : list (text * text)) (i o : bytes) :
  tracked (database w) c ins outs ->
  c <> 0%Z ->
  zip ins outs = good ++ (i, o) :: rest ->
  Forall2 (fun p t => Utf8.decode p.1 = Some t.1 /\ Utf8.decode p.2 = Some t.2)
          good texts ->
  Utf8.decode i = None \/ Utf8.decode o = None ->
  exists w',
    replay (Bound_method cache Cache.store) w = (Raised UnicodeDecodeError, w')
    /\ stdout w' =
       stdout w ++ replay_header (u "Cache.store") c
         :: ((fun t => replay_line (u "Cache.store") t.1 t.2) <$> texts).
Proof.
  intros (Hc & Hi & Ho) Hne Hz Hgood Hbad. unfold replay, cache.
  cbn [_redis __qualname__ Cache.store count_calls call_history Cache.store_body].
  rewrite (run_exists _ _ _ _ encode_store_name).
  unfold counter in Hc. destruct (database w !! "Cache.store") as [[b|l]|] eqn:Hdb;
    [|done|by injection Hc as <-].
  change (0 <? 1)%Z with true. cbv iota.
  rewrite run_assoc, (run_get _ _ _ _ (encode_text _ _ encode_store_name)).
  cbn [database received]. rewrite Hdb, (integer_of_int _ _ Hc). py_norm.
  destruct (Z.eqb_spec c 0) as [|_]; [done|].
  rewrite run_print. cbn [database wire stdout urandom drawn received].
  erewrite run_lrange; [|apply encode_inputs_key|exact Hi].
  erewrite run_lrange; [|apply encode_outputs_key|exact Ho].
  rewrite Hz, (for_each_stops _ _ _ _ _ _ _ Hgood Hbad).
  eexists. split; [reflexivity|].
  cbn [database wire stdout urandom drawn received]. by rewrite <- app_assoc.
Qed.

Lemma replay_undecodable_entry_witness :
  exists w',
    replay (RT := sample_runtime)
      (Bound_method cache (Cache.store (RT := sample_runtime))) undecodable_world
    = (Raised UnicodeDecodeError, w')
    /\ stdout w' = [u "Cache.store was called 1 times:"].
Proof.
  apply (replay_undecodable_entry (RT := sample_runtime) undecodable_world 1
           ["(1,)"] [bytes_of_values [255]] [] [] [] "(1,)" (bytes_of_values [255]));
    [repeat split|discriminate|reflexivity|constructor|right; reflexivity].
Defined.

(** X13: in a store where the keys are sound, the counter is not zero and
    every recorded entry is UTF-8, [replay] returns after printing the
    header, which states the counter, and as many lines as the shorter of
    the two lists has entries, whatever the counter says. *)
Theorem replay_line_count {RT : Runtime} (w : world) (c : Z)
    (ins outs : list bytes) :
  tracked (database w) c ins outs ->
  c <> 0%Z ->
  Forall (fun b => is_Some (Utf8.decode b)) ins ->
  Forall (fun b => is_Some (Utf8.decode b)) outs ->
  exists w' lines,
    replay (Bound_method cache Cache.store) w = (Returned tt, w')
    /\ stdout w' = stdout w ++ replay_header (u "Cache.store") c :: lines
    /\ length lines = Nat.min (length ins) (length outs).
Proof.
  intros Ht Hne Hi Ho. destruct (decodable_pairs ins outs Hi Ho) as [texts Hd].
  eexists _, _. split; [apply (replay_tracked _ _ _ _ _ Ht Hne Hd)|].
  split; [reflexivity|].
  rewrite length_fmap, <- (Forall2_length _ _ _ Hd). apply length_zip_with.
Qed.

Lemma replay_line_count_witness :
  exists w' lines,
    replay (RT := sample_runtime)
      (Bound_method cache (Cache.store (RT := sample_runtime)))
      (World (<["Cache.store" := RString "5"]>
                (<["Cache.store:inputs" := RList ["(1,)"; "(2,)"]]>
                   (<["Cache.store:outputs" := RList ["a"]]> ∅)))
             [] [] (urandom sample_world) 0)
    = (Returned tt, w')
    /\ stdout w' = u "Cache.store was called 5 times:" :: lines
    /\ length lines = 1%nat.
Proof.
  apply (replay_line_count (RT := sample_runtime)
           (World (<["Cache.store" := RString "5"]>
                     (<["Cache.store:inputs" := RList ["(1,)"; "(2,)"]]>
                        (<["Cache.store:outputs" := RList ["a"]]> ∅)))
                  [] [] (urandom sample_world) 0)
           5 ["(1,)"; "(2,)"] ["a"]);
    [repeat split|discriminate|repeat constructor; by eexists..].
Defined.

(** * Further properties of the recorded history *)

(** X14: a call of [store] with no argument, or with several, raises
    [TypeError] only after the counter has grown and the arguments have
    been pushed on the inputs list; no key is generated, nothing is set and
    the outputs list is as it was. *)
Theorem wrong_arity_is_recorded {RT : Runtime} (w : world) (args : list value)
    (c : Z) (ins outs : list bytes) :
  tracked (database w) c ins outs ->
  length args <> 1%nat ->
  let w' := snd (__call__ Cache.store cache args w) in
  fst (__call__ Cache.store cache args w) = Raised TypeError
  /\ tracked (database w') (c + 1) (ins ++ [recorded_input args]) outs
  /\ wire w' =
     wire w ++ [INCR "Cache.store";
                RPUSH "Cache.store:inputs" (recorded_input args)]
  /\ drawn w' = drawn w.
Proof.
  intros Ht Hlen. cbn zeta.
  rewrite (store_arity _ _ _ _ _ _ Ht Hlen (recorded_input_spec args)).
  cbn [fst snd database wire drawn]. split; [done|].
  split; [apply (tracked_step _ _ _ _ _ Ht)|done].
Qed.

Lemma wrong_arity_is_recorded_witness :
  let w := World ∅ [FLUSHDB] [] (urandom sample_world) 0 in
  let w' := snd (__call__ (Cache.store (RT := sample_runtime)) cache [] w) in
  fst (__call__ (Cache.store (RT := sample_runtime)) cache [] w) = Raised TypeError
  /\ database w' =
     <["Cache.store:inputs" := RList ["()"]]> (<["Cache.store" := RString "1"]> ∅)
  /\ wire w' = [FLUSHDB; INCR "Cache.store"; RPUSH "Cache.store:inputs" "()"].
Proof.
  cbn zeta.
  destruct (wrong_arity_is_recorded (RT := sample_runtime)
              (World ∅ [FLUSHDB] [] (urandom sample_world) 0) [] 0 [] [])
    as (H1 & _ & H3 & _); [repeat split|discriminate|].
  split; [exact H1|]. split; [reflexivity|exact H3].
Defined.

(** X15: the wrapper of [call_history], for any wrapped function: when the
    function returns a result that the client can encode, the wrapper
    returns that result unchanged, and the encoded result is pushed on the
    outputs list after the function has run. *)
Theorem call_history_records_result {RT : Runtime} (method : pyfunction)
    (args : list value) (kin kout vb : bytes) (ins outs : list bytes)
    (v : value) (w w2 : world) :
  Utf8.encode (__qualname__ method ++ u ":inputs") = Some kin ->
  Utf8.encode (__qualname__ method ++ u ":outputs") = Some kout ->
  history (database w) kin = Some ins ->
  __call__ method cache args
    (received (RPUSH kin (recorded_input args))
       (<[kin := RList (ins ++ [recorded_input args])]> (database w)) w)
  = (Returned v, w2) ->
  Redis.encode v = inr vb ->
  history (database w2) kout = Some outs ->
  __call__ (call_history method) cache args w =
  (Returned v,
   received (RPUSH kout vb) (<[kout := RList (outs ++ [vb])]> (database w2)) w2).
Proof.
  intros Hk Hko Hi Hm Hv Ho. unfold call_history, cache in *. py_norm.
  erewrite run_rpush;
    [|exact Hk|apply encode_text, recorded_input_spec|exact Hi].
  cbv beta. unfold bind at 1. rewrite Hm.
  erewrite run_rpush; [|exact Hko|exact Hv|exact Ho]. reflexivity.
Qed.

Lemma call_history_records_result_witness :
  exists w',
    __call__ (call_history (RT := sample_runtime) (Cache.store_body (RT := sample_runtime)))
      cache [VInt 10] sample_world
    = (Returned (VStr (next_key sample_world)), w')
    /\ history (database w') "Cache.store:outputs"
       = Some [next_key_bytes sample_world].
Proof.
  eexists. split.
  - apply (call_history_records_result (RT := sample_runtime)
             (Cache.store_body (RT := sample_runtime)) [VInt 10]
             "Cache.store:inputs" "Cache.store:outputs"
             (next_key_bytes sample_world) [] []);
      [reflexivity|reflexivity|reflexivity|vm_compute; reflexivity
      |reflexivity|reflexivity].
  - reflexivity.
Defined.
